(** * ieegprep.utils.misc: a shallow embedding and its properties

    The development follows [src/ieegprep/utils/misc.py]:
    - [PyStr]        the Python string primitives the module relies on
                     ([len], [str] on integers, [ljust], [rjust]);
    - [Formatter]    [number_to_padded_string], [numbers_to_padded_string];
    - [Allocator]    [allocate_array];
    - [Benchmark]    [time_func];
    - [CacheClearer] [clear_virtual_cache].

    Python integers are unbounded and are modelled as [Z]; Python strings are
    [string]; calls into the host (numpy, psutil, the OS) are explicit
    parameters of the functions that make them. *)

From Stdlib Require Import ZArith Lia Ascii DecimalString.
From stdpp Require Import base list strings gmap.

Open Scope Z_scope.

(** ** Python exceptions and results *)
Module Py.

(** The exception classes that occur in the module or can reach it from the
    calls it makes. [SystemExit] is what [exit(status)] raises: left
    uncaught it ends the process with that status. *)
Inductive exception : Type :=
| MemoryError (msg : string)
| ModuleNotFoundError (name : string)
| ValueError (msg : string)
| PermissionError (path : string)
| FileNotFoundError (path : string)
| OverflowError (msg : string)
| SystemExit (status : Z).

(** The outcome of a call: a value, or a raised exception. *)
Inductive result (A : Type) : Type :=
| Ok (value : A)
| Raise (e : exception).
Arguments Ok {A} value.
Arguments Raise {A} e.

(** [isinstance(e, MemoryError)]: what [except MemoryError] catches. *)
Definition is_MemoryError (e : exception) : bool :=
  match e with MemoryError _ => true | _ => false end.

(** The line feed of a ["\n"] in a Python literal. *)
Definition nl : string := String (ascii_of_nat 10) "".

End Py.

(** ** Python string primitives *)
Module PyStr.

(** [len(s)] *)
Definition len (s : string) : Z := Z.of_nat (String.length s).

(** [' ' * n] *)
Fixpoint spaces (n : nat) : string :=
  match n with
  | O => ""
  | S n' => String " " (spaces n')
  end.

(** [s.ljust(width, ' ')]: the string itself when [width <= len(s)]. *)
Definition ljust (s : string) (width : Z) : string :=
  if width <=? len s then s else s +:+ spaces (Z.to_nat (width - len s)).

(** [s.rjust(width, ' ')] *)
Definition rjust (s : string) (width : Z) : string :=
  if width <=? len s then s else spaces (Z.to_nat (width - len s)) +:+ s.

(** [str(n)] for an integer: decimal digits, with a leading minus sign. *)
Definition str_of_Z (n : Z) : string := NilZero.string_of_int (Z.to_int n).

Lemma len_nonneg s : 0 <= len s.
Proof. unfold len. lia. Qed.

Lemma sapp_nil_l t : "" +:+ t = t.
Proof. reflexivity. Qed.

Lemma sapp_cons c s t : String c s +:+ t = String c (s +:+ t).
Proof. reflexivity. Qed.

Lemma length_app s t :
  String.length (s +:+ t) = (String.length s + String.length t)%nat.
Proof.
  induction s as [|c s IH]; [done|].
  rewrite sapp_cons. simpl. by rewrite IH.
Qed.

Lemma len_app s t : len (s +:+ t) = len s + len t.
Proof. unfold len. rewrite length_app. lia. Qed.

Lemma sapp_nil_r s : s +:+ "" = s.
Proof. induction s as [|c s IH]; [done|]. by rewrite sapp_cons, IH. Qed.

Lemma sapp_assoc s t u : (s +:+ t) +:+ u = s +:+ (t +:+ u).
Proof. induction s as [|c s IH]; [done|]. by rewrite !sapp_cons, IH. Qed.

Lemma len_spaces n : len (spaces n) = Z.of_nat n.
Proof.
  unfold len. f_equal. induction n as [|n IH]; simpl; [done|by rewrite IH].
Qed.

Lemma ljust_spaces s width :
  ljust s width = s +:+ spaces (Z.to_nat (width - len s)).
Proof.
  unfold ljust. destruct (Z.leb_spec width (len s)) as [H|H]; [|done].
  replace (Z.to_nat (width - len s)) with O by lia.
  simpl. by rewrite sapp_nil_r.
Qed.

Lemma rjust_spaces s width :
  rjust s width = spaces (Z.to_nat (width - len s)) +:+ s.
Proof.
  unfold rjust. destruct (Z.leb_spec width (len s)) as [H|H]; [|done].
  by replace (Z.to_nat (width - len s)) with O by lia.
Qed.

Lemma len_ljust s width : len (ljust s width) = Z.max (len s) width.
Proof. rewrite ljust_spaces, len_app, len_spaces. pose proof (len_nonneg s). lia. Qed.

Lemma len_rjust s width : len (rjust s width) = Z.max (len s) width.
Proof. rewrite rjust_spaces, len_app, len_spaces. pose proof (len_nonneg s). lia. Qed.

(** [''.ljust(k, ' ')] is a run of [max(k, 0)] spaces. *)
Lemma ljust_empty k : ljust "" k = spaces (Z.to_nat k).
Proof. rewrite ljust_spaces, sapp_nil_l. f_equal. unfold len. simpl. f_equal. lia. Qed.

End PyStr.

(** ** PaddedFormatter *)
Module Formatter.
Import PyStr.

(** What the formatter needs of a Python number: [str(value)] and the test
    [value >= 0]. *)
Class PyNumber (A : Type) := {
  py_str : A -> string;
  py_ge0 : A -> bool
}.

#[export] Instance Z_PyNumber : PyNumber Z := {|
  py_str := str_of_Z;
  py_ge0 := fun n => 0 <=? n
|}.

Section Generic.
Context {A : Type} `{PyNumber A}.

(** [number_to_padded_string(value, width=0, pos_space=True)] *)
Definition number_to_padded_string (value : A) (width : Z) (pos_space : bool)
  : string :=
  let padded_str := if pos_space && py_ge0 value then " " else "" in
  let padded_str := padded_str +:+ py_str value in
  if width <? 0 then rjust padded_str (width * -1)
  else if 0 <? width then ljust padded_str width
  else padded_str.

(** The first loop of [numbers_to_padded_string]: the list [padded_values]
    and the running [total_value_width]. *)
Definition collect_padded (pos_space : bool) (values : list A)
  : list string * Z :=
  fold_left
    (fun '(padded_values, total_value_width) value =>
       let p := number_to_padded_string value 0 pos_space in
       (padded_values ++ [p], total_value_width + len p))
    values ([], 0).

(** [ceil(a / d)] for integers [a] and [d > 0]. *)
Definition ceil_div (a d : Z) : Z := - ((- a) / d).

(** [sep_width]: the ideal gap, rounded up and floored at 1.  The source
    divides in floating point and tests [sep_width < 1]; for a positive
    integer divisor that test is [a < d]. *)
Definition compute_sep_width (width total_value_width count sep_len : Z) : Z :=
  let a := width - total_value_width - (count - 1) * sep_len in
  let d := count - 1 in
  if a <? d then 1 else ceil_div a d.

(** One iteration of the second loop. *)
Definition emit (separator : string) (sep_width width : Z)
    (padded_str value_str : string) : string :=
  let padded_str := padded_str +:+ separator in
  let padded_str :=
    if len padded_str + sep_width + len value_str >? width
    then padded_str +:+ ljust "" (width - len padded_str - len value_str)
    else padded_str +:+ ljust "" sep_width in
  padded_str +:+ value_str.

(** [numbers_to_padded_string(values, width=0, pos_space=True, separator=', ')] *)
Definition numbers_to_padded_string (values : list A) (width : Z)
    (pos_space : bool) (separator : string) : string :=
  match values with
  | [] => ""
  | _ =>
    let '(padded_values, total_value_width) := collect_padded pos_space values in
    match padded_values with
    | [] => ""
    | first :: others =>
      if Nat.eqb (length values) 1 then ljust first width
      else
        let sep_width :=
          compute_sep_width width total_value_width
            (Z.of_nat (length values)) (len separator) in
        fold_left (emit separator sep_width width) others first
    end
  end.

(** *** Quantities the statements below are phrased with *)

(** The rendering of one value inside a line: no padding of its own. *)
Definition render (pos_space : bool) (value : A) : string :=
  number_to_padded_string value 0 pos_space.

(** Sum of the lengths of the strings of a list. *)
Definition total_len (l : list string) : Z :=
  foldr (fun p r => len p + r) 0 l.

(** Length of [rendered] when each string is preceded by one separator and
    nothing else. *)
Definition chain_len (sep_len : Z) (rendered : list string) : Z :=
  total_len rendered + Z.of_nat (length rendered) * sep_len.

(** The natural unpadded length: all rendered widths, and one separator
    between consecutive values (none for an empty or a one-value list). *)
Definition natural_length (values : list A) (pos_space : bool)
    (separator : string) : Z :=
  total_len (map (render pos_space) values)
  + Z.of_nat (length values - 1) * len separator.


(** The gap [sep_width] the source computes for [values] and [width]. *)
Definition sep_width_of (values : list A) (width : Z) (pos_space : bool)
    (separator : string) : Z :=
  compute_sep_width width (total_len (map (render pos_space) values))
    (Z.of_nat (length values)) (len separator).

(** The number of spaces one iteration of the second loop inserts. *)
Definition gap_of (separator : string) (sep_width width : Z)
    (padded_str value_str : string) : nat :=
  let m := len (padded_str +:+ separator) in
  if m + sep_width + len value_str >? width
  then Z.to_nat (width - m - len value_str)
  else Z.to_nat sep_width.

(** [rendered] strings, each preceded by the separator and its own run of
    spaces. *)
Fixpoint spread (separator : string) (gaps : list nat)
    (rendered : list string) : string :=
  match gaps, rendered with
  | k :: gaps', p :: rendered' =>
      separator +:+ spaces k +:+ p +:+ spread separator gaps' rendered'
  | _, _ => ""
  end.

(** *** The first loop *)

Lemma collect_padded_from pos_space values acc t :
  fold_left
    (fun '(padded_values, total_value_width) value =>
       let p := number_to_padded_string value 0 pos_space in
       (padded_values ++ [p], total_value_width + len p))
    values (acc, t)
  = (acc ++ map (render pos_space) values,
     t + total_len (map (render pos_space) values)).
Proof.
  revert acc t. induction values as [|v values IH]; intros acc t; simpl.
  - rewrite app_nil_r. f_equal. lia.
  - rewrite IH. rewrite <- app_assoc. simpl. f_equal.
    unfold render. lia.
Qed.

Lemma collect_padded_spec pos_space values :
  collect_padded pos_space values
  = (map (render pos_space) values, total_len (map (render pos_space) values)).
Proof. unfold collect_padded. by rewrite collect_padded_from. Qed.

(** The function, with the first loop replaced by what it computes. *)
Lemma numbers_to_padded_string_single v width pos_space separator :
  numbers_to_padded_string [v] width pos_space separator
  = ljust (render pos_space v) width.
Proof. reflexivity. Qed.

Lemma numbers_to_padded_string_many v0 v1 rest width pos_space separator :
  numbers_to_padded_string (v0 :: v1 :: rest) width pos_space separator
  = fold_left
      (emit separator (sep_width_of (v0 :: v1 :: rest) width pos_space separator)
         width)
      (map (render pos_space) (v1 :: rest)) (render pos_space v0).
Proof.
  unfold numbers_to_padded_string. rewrite collect_padded_spec. reflexivity.
Qed.

(** *** The second loop: shape of the output *)

Lemma emit_shape separator sep_width width padded_str value_str :
  emit separator sep_width width padded_str value_str
  = padded_str +:+ separator
    +:+ spaces (gap_of separator sep_width width padded_str value_str)
    +:+ value_str.
Proof.
  unfold emit, gap_of.
  destruct (_ >? width); rewrite ljust_empty, !sapp_assoc; reflexivity.
Qed.


(** *** The second loop: lengths *)

Lemma len_emit separator sep_width width padded_str value_str :
  len (emit separator sep_width width padded_str value_str)
  = len padded_str + len separator + len value_str
    + (if width <? len padded_str + len separator + sep_width + len value_str
       then Z.max 0 (width - len padded_str - len separator - len value_str)
       else Z.max 0 sep_width).
Proof.
  rewrite emit_shape, !len_app, len_spaces. unfold gap_of.
  rewrite len_app, Z.gtb_ltb.
  destruct (width <? _); lia.
Qed.

Lemma total_len_nonneg l : 0 <= total_len l.
Proof.
  induction l as [|p l IH]; simpl; [lia|]. pose proof (len_nonneg p). lia.
Qed.

Lemma chain_len_cons sep_len p l :
  chain_len sep_len (p :: l) = sep_len + len p + chain_len sep_len l.
Proof. unfold chain_len. simpl length. rewrite Nat2Z.inj_succ. simpl. lia. Qed.

Lemma chain_len_nonneg sep_len l : 0 <= sep_len -> 0 <= chain_len sep_len l.
Proof. intros. unfold chain_len. pose proof (total_len_nonneg l). nia. Qed.



(** When all gaps but one fit and all gaps together reach [width], the loop
    ends exactly at [width]. *)
Lemma loop_exact separator sep_width width rendered padded_str :
  1 <= sep_width ->
  rendered <> [] ->
  len padded_str + chain_len (len separator) rendered
    + Z.of_nat (length rendered - 1) * sep_width <= width ->
  width <= len padded_str + chain_len (len separator) rendered
    + Z.of_nat (length rendered) * sep_width ->
  len (fold_left (emit separator sep_width width) rendered padded_str) = width.
Proof.
  intros Hg. revert padded_str.
  induction rendered as [|p rendered IH]; intros padded_str Hne Hlo Hhi; [done|].
  simpl fold_left. rewrite chain_len_cons in Hlo, Hhi.
  destruct rendered as [|q rendered].
  - simpl. rewrite len_emit. unfold chain_len in *. simpl in *.
    destruct (Z.ltb_spec width
      (len padded_str + len separator + sep_width + len p)); lia.
  - pose proof (chain_len_nonneg (len separator) (q :: rendered)
                  (len_nonneg separator)) as Hc.
    assert (Hemit : len (emit separator sep_width width padded_str p)
              = len padded_str + len separator + len p + sep_width).
    { rewrite len_emit.
      destruct (Z.ltb_spec width
        (len padded_str + len separator + sep_width + len p)) as [Hlt|Hge].
      - simpl length in Hlo. nia.
      - lia. }
    apply IH; [done| |]; rewrite Hemit.
    + simpl length in *. nia.
    + simpl length in *. nia.
Qed.

Lemma compute_sep_width_ge1 width total count sep_len :
  2 <= count -> 1 <= compute_sep_width width total count sep_len.
Proof.
  intros Hc. unfold compute_sep_width, ceil_div.
  destruct (Z.ltb_spec (width - total - (count - 1) * sep_len) (count - 1))
    as [Hlt|Hge]; [lia|].
  set (a := width - total - (count - 1) * sep_len) in *.
  set (d := count - 1) in *.
  assert (Hd : 0 < d) by lia.
  assert ((- a) / d <= -1); [|lia].
  apply Z.div_le_upper_bound; lia.
Qed.

Lemma compute_sep_width_covers width total count sep_len :
  2 <= count ->
  width - total - (count - 1) * sep_len
  <= (count - 1) * compute_sep_width width total count sep_len.
Proof.
  intros Hc. unfold compute_sep_width, ceil_div.
  destruct (Z.ltb_spec (width - total - (count - 1) * sep_len) (count - 1))
    as [Hlt|Hge]; [lia|].
  set (a := width - total - (count - 1) * sep_len) in *.
  set (d := count - 1) in *.
  assert (Hd : 0 < d) by lia.
  pose proof (Z.mul_div_le (- a) d Hd). lia.
Qed.

End Generic.

(** *** The functions at work on integers *)

Example number_to_padded_string_widths :
  number_to_padded_string (-3) (-6) true = "    -3"
  /\ number_to_padded_string 12 6 true = " 12   "
  /\ number_to_padded_string 12 6 false = "12    "
  /\ number_to_padded_string 12345 3 true = " 12345".
Proof. repeat split; reflexivity. Qed.

Example numbers_to_padded_string_one_value :
  numbers_to_padded_string [7] 5 true ", " = " 7   ".
Proof. vm_compute. reflexivity. Qed.

Example numbers_to_padded_string_spread :
  numbers_to_padded_string [1; -2; 30] 20 true ", " = " 1,      -2,      30"
  /\ numbers_to_padded_string [1; -2; 30] 20 false ";" = "1;       -2;      30".
Proof. split; vm_compute; reflexivity. Qed.

(** Nine values fit in width 43 with 9 characters to spare; gaps of
    [ceil(9 / 8) = 2] use the spare width up before the last two values. *)
Example numbers_to_padded_string_nine_values :
  numbers_to_padded_string [1; 2; 3; 4; 5; 6; 7; 8; 9] 43 true ", "
  = " 1,    2,    3,    4,    5,    6,    7,   8,  9"
  /\ len (numbers_to_padded_string [1; 2; 3; 4; 5; 6; 7; 8; 9] 43 true ", ") = 47.
Proof. split; vm_compute; reflexivity. Qed.


(** C9: [number_to_padded_string] renders the value as text, with one space
    in front exactly when [pos_space] holds and the value is [>= 0]; the
    result is that text with [abs(width) - len(text)] spaces on its left
    when [width] is negative, [width - len(text)] spaces on its right when
    [width] is positive, and no padding when [width] is 0 (a count that is
    not positive means no spaces), so its length is the larger of
    [len(text)] and [abs(width)].  On the integers 5 and -3 with width 0 and
    [pos_space] set it returns [" 5"] and ["-3"]. *)
Theorem number_to_padded_string_spec :
  (forall (A : Type) (N : PyNumber A) (value : A) (width : Z) (pos_space : bool),
     let text := if pos_space && py_ge0 value then String " " (py_str value)
                 else py_str value in
     number_to_padded_string value width pos_space
     = spaces (Z.to_nat (- width - len text)) +:+ text
       +:+ spaces (Z.to_nat (width - len text))
     /\ len (number_to_padded_string value width pos_space)
        = Z.max (len text) (Z.abs width))
  /\ number_to_padded_string 5 0 true = " 5"
  /\ number_to_padded_string (-3) 0 true = "-3".
Proof.
  split; [|split; reflexivity].
  intros A N value width pos_space text.
  assert (Htext : (if pos_space && py_ge0 value then " " else "")
                  +:+ py_str value = text).
  { subst text. destruct (pos_space && py_ge0 value); reflexivity. }
  unfold number_to_padded_string. cbv zeta. rewrite Htext.
  pose proof (len_nonneg text) as Hlen.
  destruct (Z.ltb_spec width 0) as [Hneg|Hnn].
  - replace (Z.to_nat (width - len text)) with O by lia.
    simpl spaces. rewrite sapp_nil_r.
    replace (- width - len text) with (width * -1 - len text) by lia.
    rewrite <- rjust_spaces. split; [done|]. rewrite len_rjust. lia.
  - replace (Z.to_nat (- width - len text)) with O by lia.
    simpl spaces. rewrite sapp_nil_l.
    destruct (Z.ltb_spec 0 width) as [Hpos|Hzero].
    + rewrite <- ljust_spaces. split; [done|]. rewrite len_ljust. lia.
    + replace (Z.to_nat (width - len text)) with O by lia.
      simpl spaces. rewrite sapp_nil_r. split; [done|]. lia.
Qed.





(** When the width is met exactly: for a non-empty list, when the natural
    unpadded length together with all the computed gaps but one
    ([count - 2] gaps of [sep_width]; none for a single value) fits within
    [width], the line has length exactly [width]. *)
Lemma numbers_to_padded_string_fills_width :
  forall (A : Type) (N : PyNumber A) (v0 : A) (rest : list A) (width : Z)
         (pos_space : bool) (separator : string),
    natural_length (v0 :: rest) pos_space separator
      + Z.of_nat (length rest - 1)
        * sep_width_of (v0 :: rest) width pos_space separator <= width ->
    len (numbers_to_padded_string (v0 :: rest) width pos_space separator)
    = width.
Proof.
  intros A N v0 rest width pos_space separator Hfit.
  destruct rest as [|v1 rest].
  - rewrite numbers_to_padded_string_single, len_ljust.
    unfold natural_length in Hfit. simpl in Hfit. lia.
  - rewrite numbers_to_padded_string_many.
    set (g := sep_width_of (v0 :: v1 :: rest) width pos_space separator) in *.
    assert (Hcount : 2 <= Z.of_nat (length (v0 :: v1 :: rest)))
      by (simpl length; lia).
    pose proof (compute_sep_width_ge1 width
      (total_len (map (render pos_space) (v0 :: v1 :: rest)))
      _ (len separator) Hcount) as Hg1.
    pose proof (compute_sep_width_covers width
      (total_len (map (render pos_space) (v0 :: v1 :: rest)))
      _ (len separator) Hcount) as Hcov.
    fold (sep_width_of (v0 :: v1 :: rest) width pos_space separator) in Hg1, Hcov.
    fold g in Hg1, Hcov.
    unfold natural_length in Hfit.
    assert (Hchain : chain_len (len separator)
                       (map (render pos_space) (v1 :: rest))
                     = total_len (map (render pos_space) (v1 :: rest))
                       + Z.of_nat (S (length rest)) * len separator).
    { unfold chain_len. by rewrite length_map. }
    simpl total_len in Hfit, Hcov. simpl length in Hfit, Hcov.
    apply loop_exact; [done|done| |].
    + rewrite Hchain, length_map. simpl total_len. simpl length.
      replace (S (length rest) - 0)%nat with (S (length rest)) in Hfit by lia.
      replace (S (length rest) - 1)%nat with (length rest - 0)%nat by lia.
      replace (length rest - 0)%nat with (length rest) in * by lia.
      lia.
    + rewrite Hchain, length_map. simpl total_len. simpl length.
      replace (Z.of_nat (S (S (length rest))) - 1)
        with (Z.of_nat (S (length rest))) in Hcov by lia.
      lia.
Qed.

(** C3 does not hold of the code.  For any three values and a non-empty
    separator, at the [width] that equals the natural unpadded length (the
    values and the separators fit exactly), the line is one character
    longer than [width]: [sep_width] is floored at 1, the first gap takes
    that space, and the last gap can only shrink to nothing.  So the line
    for [[1, 2, 3]], width 10 and separator [", "] is [" 1,   2,  3"], 11
    characters, neither at most 10 nor exactly 10.  The example of the
    claim holds: at width 11 the line is the same, 11 characters, the three
    renderings in order, each after the first behind the separator and its
    gap. *)
Theorem numbers_to_padded_string_overruns_width :
  (forall (A : Type) (N : PyNumber A) (v0 v1 v2 : A) (pos_space : bool)
          (separator : string),
     0 < len separator ->
     let width := natural_length [v0; v1; v2] pos_space separator in
     len (numbers_to_padded_string [v0; v1; v2] width pos_space separator)
     = width + 1)
  /\ natural_length [1; 2; 3] true ", " = 10
  /\ numbers_to_padded_string [1; 2; 3] 10 true ", " = " 1,   2,  3"
  /\ len (numbers_to_padded_string [1; 2; 3] 10 true ", ") = 11
  /\ ~ (len (numbers_to_padded_string [1; 2; 3] 10 true ", ") <= 10)
  /\ numbers_to_padded_string [1; 2; 3] 11 true ", "
     = " 1" +:+ spread ", " [1%nat; 0%nat] [" 2"; " 3"]
  /\ len (numbers_to_padded_string [1; 2; 3] 11 true ", ") = 11.
Proof.
  split.
  - intros A N v0 v1 v2 pos_space separator Hsep width.
    rewrite numbers_to_padded_string_many.
    assert (Hg : sep_width_of [v0; v1; v2] width pos_space separator = 1).
    { subst width. unfold sep_width_of, natural_length, compute_sep_width.
      cbn [length map]. cbv zeta.
      destruct (Z.ltb_spec
        (total_len [render pos_space v0; render pos_space v1;
                    render pos_space v2]
         + Z.of_nat (3 - 1) * len separator
         - total_len [render pos_space v0; render pos_space v1;
                      render pos_space v2]
         - (Z.of_nat 3 - 1) * len separator)
        (Z.of_nat 3 - 1)) as [_|Hge]; [done|lia]. }
    rewrite Hg. cbn [map fold_left]. rewrite !len_emit.
    subst width. unfold natural_length. cbn [length map total_len foldr].
    pose proof (len_nonneg (render pos_space v0)).
    pose proof (len_nonneg (render pos_space v1)).
    pose proof (len_nonneg (render pos_space v2)).
    repeat match goal with
           | |- context [if ?a <? ?b then _ else _] =>
               destruct (Z.ltb_spec a b)
           end; lia.
  - repeat split; vm_compute; try reflexivity. intros Hle; by apply Hle.
Qed.

Lemma numbers_to_padded_string_overruns_width_witness :
  0 < len ", "
  /\ len (numbers_to_padded_string [1; 2; 3]
            (natural_length [1; 2; 3] true ", ") true ", ")
     = natural_length [1; 2; 3] true ", " + 1.
Proof.
  split; [reflexivity|].
  apply (proj1 numbers_to_padded_string_overruns_width Z Z_PyNumber 1 2 3
           true ", ").
  reflexivity.
Defined.

(** C4 on the input [[1, 2, 3]], width 10, defaults otherwise: the width and
    the natural length are both 10; the first gap receives the one space
    [sep_width] is floored at, the last gap can only shrink to nothing, and
    the line has 11 characters, more than the larger of the two. *)
Lemma numbers_to_padded_string_exceeds_max :
  numbers_to_padded_string [1; 2; 3] 10 true ", " = " 1,   2,  3"
  /\ sep_width_of [1; 2; 3] 10 true ", " = 1
  /\ natural_length [1; 2; 3] true ", " = 10
  /\ len (numbers_to_padded_string [1; 2; 3] 10 true ", ") = 11
  /\ ~ (len (numbers_to_padded_string [1; 2; 3] 10 true ", ")
        <= Z.max 10 (natural_length [1; 2; 3] true ", ")).
Proof.
  repeat split; vm_compute; try reflexivity; intros Hle; by apply Hle.
Qed.

End Formatter.

(** ** GuardedAllocator *)
Module Allocator.
Import Py PyStr.

(** What [psutil.virtual_memory()] returns, as far as the module reads it. *)
Record svmem : Type := { available : Z; used : Z }.

(** The host at the time of one call of [allocate_array]: for each call the
    function makes outside the module, the exception it raises, if any.
    - [np_empty_raises]: numpy failing to create the array object (a
      [MemoryError] when it cannot reserve the block);
    - [import_psutil_raises]: [from psutil import virtual_memory] failing
      (a [ModuleNotFoundError] when psutil is not installed);
    - [virtual_memory]: the answer of the memory query, or its exception. *)
Record host : Type := {
  np_empty_raises : option exception;
  import_psutil_raises : option exception;
  virtual_memory : result svmem
}.

(** [dimensions (int or tuple)] *)
Inductive dimensions : Type :=
| DimInt (n : Z)
| DimTuple (dims : list Z).

Definition shape_of (d : dimensions) : list Z :=
  match d with
  | DimInt n => [n]
  | DimTuple dims => dims
  end.

(** An element type: the module only depends on its size in bytes. *)
Record dtype : Type := { itemsize : Z }.

Definition float64 : dtype := {| itemsize := 8 |}.

(** [productOf(shape)] *)
Definition product (shape : list Z) : Z := foldr Z.mul 1 shape.

(** An [ndarray]: its shape, element type and elements.  [np.empty] leaves
    the elements unset, which [elements = None] stands for. *)
Record ndarray (T : Type) : Type := {
  shape : list Z;
  element_type : dtype;
  elements : option (list T)
}.
Arguments shape {T} _.
Arguments element_type {T} _.
Arguments elements {T} _.

(** [data.nbytes] *)
Definition nbytes {T : Type} (data : ndarray T) : Z :=
  product (shape data) * itemsize (element_type data).

(** [NPY_MAX_INTP] on a 64-bit platform: the largest dimension and the
    largest byte size numpy accepts. *)
Definition npy_max_intp : Z := 2 ^ 63 - 1.

Definition too_big_message : string :=
  "array is too big; `arr.size * arr.dtype.itemsize` is larger than the maximum possible size.".

(** numpy's pass over the dimensions, with the byte size so far: a zero
    dimension is skipped, a negative one refused, and so is one that takes
    the byte size beyond [NPY_MAX_INTP]. *)
Fixpoint check_dims (size_so_far : Z) (dims : list Z) : result Z :=
  match dims with
  | [] => Ok size_so_far
  | dim :: rest =>
    if dim =? 0 then check_dims size_so_far rest
    else if dim <? 0
    then Raise (ValueError "negative dimensions are not allowed")
    else if npy_max_intp <? size_so_far * dim
    then Raise (ValueError too_big_message)
    else check_dims (size_so_far * dim) rest
  end.

(** [np.empty(dimensions, dtype=dtype)]: numpy refuses with a [ValueError]
    a dimension outside its integer range, a negative dimension and a byte
    size beyond its maximum, whatever the host; otherwise the host decides
    whether the object can be created. *)
Definition np_empty {T : Type} (h : host) (d : dimensions) (dt : dtype)
  : result (ndarray T) :=
  if existsb (fun n => (npy_max_intp <? n) || (n <? - npy_max_intp - 1))
       (shape_of d)
  then Raise (ValueError "Maximum allowed dimension exceeded")
  else
    match check_dims (itemsize dt) (shape_of d) with
    | Raise e => Raise e
    | Ok _ =>
      match np_empty_raises h with
      | Some e => Raise e
      | None =>
          Ok {| shape := shape_of d; element_type := dt; elements := None |}
      end
    end.

(** [data.fill(fill_value)] *)
Definition fill {T : Type} (data : ndarray T) (fill_value : T) : ndarray T :=
  {| shape := shape data;
     element_type := element_type data;
     elements := Some (replicate (Z.to_nat (product (shape data))) fill_value) |}.

(** [from psutil import virtual_memory; mem = virtual_memory()] *)
Definition query_memory (h : host) : result svmem :=
  match import_psutil_raises h with
  | Some e => Raise e
  | None => virtual_memory h
  end.

Definition out_of_memory_message : string :=
  "Not enough memory available to create array.".

Definition docker_hint : string :=
  "(for docker users: extend the memory resources available to the docker service)".

(** The message logged when [mem is None]. *)
Definition reduced_diagnostic : string :=
  out_of_memory_message +:+ nl +:+ docker_hint.

(** The double nearest to the integer [n], ties to the even mantissa: [n]
    itself up to 53 significant bits, and beyond that a multiple of the
    power of two its last bit stands for. *)
Definition round_to_double (n : Z) : Z :=
  let m := Z.abs n in
  let bits := Z.log2 m + 1 in
  if bits <=? 53 then n
  else
    let shift := bits - 53 in
    let q := m / 2 ^ shift in
    let r := m mod 2 ^ shift in
    let half := 2 ^ (shift - 1) in
    let q := if (half <? r) || ((r =? half) && Z.odd q) then q + 1 else q in
    if n <? 0 then - (q * 2 ^ shift) else q * 2 ^ shift.

(** The first power of two no double reaches. *)
Definition double_overflow : Z := 2 ^ 1024.

(** The conversion of an integer to a float that [/] makes of its left
    operand: the nearest double, or [OverflowError]. *)
Definition float_of_int (n : Z) : result Z :=
  let x := round_to_double n in
  if double_overflow <=? Z.abs x
  then Raise (OverflowError "int too large to convert to float")
  else Ok x.

(** [int((mem.used + data_bytes_needed) / (1024.0 ** 2))]: the sum is
    converted to a double, divided by [2^20] (exact on a double) and
    truncated towards zero. *)
Definition megabytes (mem : svmem) (data_bytes_needed : Z) : result Z :=
  match float_of_int (used mem + data_bytes_needed) with
  | Raise e => Raise e
  | Ok x => Ok (Z.quot x (1024 ^ 2))
  end.

(** The message logged when the memory query has answered, for [mb] MB. *)
Definition quantified_text (mb : Z) : string :=
  out_of_memory_message +:+ nl +:+ "At least "
  +:+ str_of_Z mb
  +:+ " MB total is needed, most likely more." +:+ nl +:+ docker_hint.

Definition quantified_diagnostic (mem : svmem) (data_bytes_needed : Z)
  : result string :=
  match megabytes mem data_bytes_needed with
  | Raise e => Raise e
  | Ok mb => Ok (quantified_text mb)
  end.

(** The [except MemoryError] clause, entered with the values [mem] and
    [data_bytes_needed] have when [e] is raised; any other exception passes
    through, and so does one raised while the line to log is put together.
    [log] is what [logging.error] has received. *)
Definition on_exception {T : Type} (mem : option svmem) (data_bytes_needed : Z)
    (e : exception) (log : list string) : result (ndarray T) * list string :=
  if is_MemoryError e then
    match mem with
    | None =>
        (Raise (MemoryError out_of_memory_message), log ++ [reduced_diagnostic])
    | Some m =>
        match quantified_diagnostic m data_bytes_needed with
        | Raise e' => (Raise e', log)
        | Ok line => (Raise (MemoryError out_of_memory_message), log ++ [line])
        end
    end
  else (Raise e, log).

(** [allocate_array(dimensions, fill_value=np.nan, dtype=np.float64)] *)
Definition allocate_array {T : Type} (h : host) (d : dimensions)
    (fill_value : T) (dt : dtype) (log : list string)
  : result (ndarray T) * list string :=
  match np_empty h d dt with
  | Raise e => on_exception None 0 e log
  | Ok data =>
    let data_bytes_needed := nbytes data in
    match query_memory h with
    | Raise e => on_exception None data_bytes_needed e log
    | Ok mem =>
      if available mem <=? data_bytes_needed
      then on_exception (Some mem) data_bytes_needed (MemoryError "") log
      else (Ok (fill data fill_value), log)
    end
  end.

(** A host with 16 GiB available and 4 GiB used, where every call works. *)
Definition roomy_host : host :=
  {| np_empty_raises := None;
     import_psutil_raises := None;
     virtual_memory := Ok {| available := 16 * 1024 ^ 3; used := 4 * 1024 ^ 3 |} |}.

(** The same host without psutil. *)
Definition host_without_psutil : host :=
  {| np_empty_raises := None;
     import_psutil_raises := Some (ModuleNotFoundError "psutil");
     virtual_memory := virtual_memory roomy_host |}.

(** A host where numpy cannot reserve the block. *)
Definition host_numpy_oom : host :=
  {| np_empty_raises := Some (MemoryError "Unable to allocate array");
     import_psutil_raises := None;
     virtual_memory := virtual_memory roomy_host |}.

(** A host with 32 bytes available. *)
Definition tiny_host : host :=
  {| np_empty_raises := None;
     import_psutil_raises := None;
     virtual_memory := Ok {| available := 32; used := 5 * 1024 ^ 2 |} |}.

Example allocate_array_runs :
  allocate_array tiny_host (DimInt 3) 0 float64 []
  = (Ok {| shape := [3]; element_type := float64; elements := Some [0; 0; 0] |},
     [])
  /\ allocate_array tiny_host (DimTuple [2; 2]) 0 float64 []
     = (Raise (MemoryError out_of_memory_message),
        [out_of_memory_message +:+ nl
         +:+ "At least 5 MB total is needed, most likely more." +:+ nl
         +:+ docker_hint])
  /\ allocate_array tiny_host (DimInt (-3)) 0 float64 []
     = (Raise (ValueError "negative dimensions are not allowed"), []).
Proof. repeat split; vm_compute; reflexivity. Qed.

(** The rounding shows from [2^53] on: for [2^53 + 2^20 - 1] bytes the
    double is [2^53 + 2^20], one MB more than the exact quotient. *)
Example megabytes_rounds :
  megabytes {| available := 0; used := 2 ^ 53 |} (2 ^ 20 - 1) = Ok 8589934593
  /\ Z.quot (2 ^ 53 + (2 ^ 20 - 1)) (1024 ^ 2) = 8589934592
  /\ float_of_int (2 ^ 1024)
     = Raise (OverflowError "int too large to convert to float").
Proof. repeat split; vm_compute; reflexivity. Qed.




(** An array object that exists is the one asked for. *)
Lemma np_empty_inv {T : Type} (h : host) (d : dimensions) (dt : dtype)
    (data : ndarray T) :
  np_empty h d dt = Ok data ->
  data = {| shape := shape_of d; element_type := dt; elements := None |}.
Proof.
  unfold np_empty. destruct (existsb _ _); [done|].
  destruct (check_dims _ _); [|done].
  destruct (np_empty_raises h); [done|]. congruence.
Qed.



(** An integer of at most 53 bits is a double. *)
Lemma round_to_double_small (n : Z) :
  Z.abs n < 2 ^ 53 -> round_to_double n = n.
Proof.
  intros Hn. unfold round_to_double. cbv zeta.
  destruct (Z.leb_spec (Z.log2 (Z.abs n) + 1) 53) as [_|Hbits]; [done|].
  exfalso. destruct (Z.eq_dec (Z.abs n) 0) as [Hz|Hnz].
  - rewrite Hz in Hbits. simpl in Hbits. lia.
  - apply Z.log2_lt_pow2 in Hn; lia.
Qed.

(** Rounding at most doubles the magnitude. *)
Lemma round_to_double_bound (n : Z) :
  Z.abs (round_to_double n) <= 2 * Z.abs n.
Proof.
  unfold round_to_double. cbv zeta.
  destruct (Z.leb_spec (Z.log2 (Z.abs n) + 1) 53) as [_|Hbits]; [lia|].
  set (m := Z.abs n) in *.
  assert (Hm : 0 < m).
  { destruct (Z.lt_ge_cases 0 m) as [|Hle]; [done|].
    rewrite (Z.log2_nonpos m) in Hbits by lia. lia. }
  set (shift := Z.log2 m + 1 - 53).
  assert (Hp : 0 < 2 ^ shift) by (apply Z.pow_pos_nonneg; lia).
  assert (Hpm : 2 ^ shift <= m).
  { etrans; [|apply Z.log2_spec; exact Hm].
    apply Z.pow_le_mono_r; lia. }
  set (p := 2 ^ shift) in *.
  pose proof (Z.mul_div_le m p Hp) as Hqp.
  assert (Hq : 1 <= m / p) by (apply Z.div_le_lower_bound; lia).
  set (q := m / p) in *.
  destruct (_ || _); destruct (n <? 0); nia.
Qed.

(** Below [2^1023] no conversion overflows. *)
Lemma float_of_int_ok (n : Z) :
  Z.abs n < 2 ^ 1023 -> float_of_int n = Ok (round_to_double n).
Proof.
  intros Hn. unfold float_of_int. cbv zeta.
  pose proof (round_to_double_bound n) as Hb.
  destruct (Z.leb_spec double_overflow (Z.abs (round_to_double n))) as [Hov|_];
    [|done].
  exfalso. unfold double_overflow in Hov.
  change (2 ^ 1024) with (2 * 2 ^ 1023) in Hov. lia.
Qed.

Lemma megabytes_small (mem : svmem) (data_bytes_needed : Z) :
  Z.abs (used mem + data_bytes_needed) < 2 ^ 53 ->
  megabytes mem data_bytes_needed
  = Ok (Z.quot (used mem + data_bytes_needed) (1024 ^ 2)).
Proof.
  intros Hn. unfold megabytes.
  rewrite float_of_int_ok, round_to_double_small; [done|done|].
  etrans; [exact Hn|]. by vm_compute.
Qed.

(** The only exception raised while the line is put together is the
    [OverflowError] of the conversion. *)
Lemma quantified_diagnostic_raises (mem : svmem) (data_bytes_needed : Z)
    (e : exception) :
  quantified_diagnostic mem data_bytes_needed = Raise e ->
  is_MemoryError e = false.
Proof.
  unfold quantified_diagnostic, megabytes, float_of_int. cbv zeta.
  destruct (_ <=? _); [|done]. intros [= <-]. done.
Qed.




(** C6, as the code has it: whenever the array object is created and the
    memory query cannot be performed, [allocate_array] returns no array and
    the exception of the query decides: a [MemoryError] is answered by the
    reduced diagnostic (no MB estimate) and [MemoryError]; any other
    exception, such as the [ModuleNotFoundError] of a missing psutil, leaves
    the function as it is, with nothing logged.  A [MemoryError] raised by
    numpy while creating the array object, before the query, is answered by
    the reduced diagnostic too. *)
Theorem allocate_array_query_failure :
  forall (T : Type) (h : host) (d : dimensions) (fill_value : T) (dt : dtype)
         (log : list string),
    (forall (e : exception) (data : ndarray T),
       np_empty h d dt = Ok data ->
       query_memory h = Raise e ->
       allocate_array h d fill_value dt log
       = if is_MemoryError e
         then (Raise (MemoryError out_of_memory_message),
               log ++ [reduced_diagnostic])
         else (Raise e, log))
    /\ (forall msg : string,
          @np_empty T h d dt = Raise (MemoryError msg) ->
          allocate_array h d fill_value dt log
          = (Raise (MemoryError out_of_memory_message),
             log ++ [reduced_diagnostic])).
Proof.
  intros T h d fill_value dt log. split.
  - intros e data Hnp Hq. unfold allocate_array.
    rewrite Hnp, Hq. unfold on_exception.
    destruct (is_MemoryError e); reflexivity.
  - intros msg Hnp. unfold allocate_array. rewrite Hnp. reflexivity.
Qed.

Lemma allocate_array_query_failure_witness :
  @np_empty Z host_without_psutil (DimInt 4) float64
  = Ok {| shape := [4]; element_type := float64; elements := None |}
  /\ query_memory host_without_psutil = Raise (ModuleNotFoundError "psutil")
  /\ allocate_array host_without_psutil (DimInt 4) 0 float64 []
     = (Raise (ModuleNotFoundError "psutil"), [])
  /\ @np_empty Z host_numpy_oom (DimInt 4) float64
     = Raise (MemoryError "Unable to allocate array")
  /\ allocate_array host_numpy_oom (DimInt 4) 0 float64 []
     = (Raise (MemoryError out_of_memory_message), [reduced_diagnostic]).
Proof.
  split; [reflexivity|]. split; [reflexivity|]. split; [|split].
  - exact (proj1 (allocate_array_query_failure Z host_without_psutil (DimInt 4)
                    0 float64 [])
             (ModuleNotFoundError "psutil")
             {| shape := [4]; element_type := float64; elements := None |}
             eq_refl eq_refl).
  - reflexivity.
  - exact (proj2 (allocate_array_query_failure Z host_numpy_oom (DimInt 4)
                    0 float64 [])
             "Unable to allocate array" eq_refl).
Defined.

(** The claim C6 fails as stated: without psutil the query cannot be
    performed, and [allocate_array] raises [ModuleNotFoundError], not
    [MemoryError], and logs nothing. *)
Lemma allocate_array_without_psutil :
  query_memory host_without_psutil = Raise (ModuleNotFoundError "psutil")
  /\ allocate_array host_without_psutil (DimTuple [2; 3]) 0 float64 []
     = (Raise (ModuleNotFoundError "psutil"), [])
  /\ fst (allocate_array host_without_psutil (DimTuple [2; 3]) 0 float64 [])
     <> Raise (MemoryError out_of_memory_message).
Proof. repeat split; try reflexivity. discriminate. Qed.

End Allocator.

(** ** Benchmark *)
Module Benchmark.

Section TimeFunc.
(** [W] is the state the timed operations and the clock act on, [F] the
    floating-point numbers of the samples.  The arithmetic on [F] and the
    numpy reductions are taken as they are. *)
Context {W F : Type}.
Variable time_time : W -> F * W.
Variables (zero thousand : F) (fsub fmul : F -> F -> F).
Variables np_mean np_std np_min np_max : list F -> F.

(** What [time_func] returns: [mean, std, (min, max), times]. *)
Record statistics : Type := {
  mean : F;
  std : F;
  range : F * F;
  times : list F
}.

(** One pass of the loop body, for index [iLoop]. *)
Definition iteration (fun_ : W -> W) (pre_fun : option (W -> W))
    (state : list F * W) (iLoop : nat) : list F * W :=
  let '(times, w) := state in
  let w := match pre_fun with Some pre => pre w | None => w end in
  let '(time1, w) := time_time w in
  let w := fun_ w in
  let '(time2, w) := time_time w in
  (<[iLoop := fmul (fsub time2 time1) thousand]> times, w).

(** [time_func(fun, pre_fun=None, loop=5, ...)]; [fun_] is the call of
    [fun] on the remaining arguments, as a change of the state. *)
Definition time_func (fun_ : W -> W) (pre_fun : option (W -> W)) (loop : Z)
    (w : W) : statistics * W :=
  let loop := if loop <? 1 then 1 else loop in
  let times := replicate (Z.to_nat loop) zero in
  let '(times, w) :=
    fold_left (iteration fun_ pre_fun) (seq 0 (Z.to_nat loop)) (times, w) in
  ({| mean := np_mean times;
      std := np_std times;
      range := (np_min times, np_max times);
      times := times |}, w).

Lemma iteration_length fun_ pre_fun state iLoop :
  length (fst (iteration fun_ pre_fun state iLoop)) = length (fst state).
Proof.
  destruct state as [ts w]. unfold iteration.
  destruct (time_time _) as [time1 w1].
  destruct (time_time _) as [time2 w2].
  simpl. apply length_insert.
Qed.

Lemma loop_length fun_ pre_fun indices state :
  length (fst (fold_left (iteration fun_ pre_fun) indices state))
  = length (fst state).
Proof.
  revert state. induction indices as [|i indices IH]; intros state; [done|].
  simpl. by rewrite IH, iteration_length.
Qed.

Lemma time_func_length fun_ pre_fun loop w :
  Z.of_nat (length (times (fst (time_func fun_ pre_fun loop w))))
  = Z.max 1 loop.
Proof.
  unfold time_func.
  set (n := if loop <? 1 then 1 else loop).
  pose proof (loop_length fun_ pre_fun (seq 0 (Z.to_nat n))
                (replicate (Z.to_nat n) zero, w)) as Hlen.
  destruct (fold_left _ _ _) as [ts w'].
  simpl in *. rewrite Hlen, length_replicate. subst n.
  destruct (Z.ltb_spec loop 1); lia.
Qed.

End TimeFunc.

(** A run on a clock counted in whole seconds: the operation takes 7, the
    pre-operation 100, and only the operation is measured. *)
Example time_func_runs :
  forall np_mean np_std np_min np_max : list Z -> Z,
    let '(stats, w) :=
      time_func (fun w : Z => (w, w)) 0 1000 Z.sub Z.mul
        np_mean np_std np_min np_max
        (fun w => w + 7) (Some (fun w => w + 100)) 3 0 in
    times stats = [7000; 7000; 7000] /\ w = 321.
Proof. intros. vm_compute. split; reflexivity. Qed.

(** C8: whatever the operation, the pre-operation and the integer [loop],
    [time_func] returns as many samples as [loop] clamped to at least 1:
    five for [loop = 5], one for [loop = 0]. *)
Theorem time_func_samples :
  forall (W F : Type) (time_time : W -> F * W) (zero thousand : F)
         (fsub fmul : F -> F -> F) (np_mean np_std np_min np_max : list F -> F)
         (fun_ : W -> W) (pre_fun : option (W -> W)) (w : W),
    let measure := fun loop =>
      times (fst (time_func time_time zero thousand fsub fmul
                    np_mean np_std np_min np_max fun_ pre_fun loop w)) in
    (forall loop : Z, Z.of_nat (length (measure loop)) = Z.max 1 loop)
    /\ length (measure 5) = 5%nat
    /\ length (measure 0) = 1%nat.
Proof.
  intros W F time_time zero thousand fsub fmul np_mean np_std np_min np_max
    fun_ pre_fun w measure.
  assert (Hlen : forall loop : Z,
            Z.of_nat (length (measure loop)) = Z.max 1 loop).
  { intros loop. subst measure. apply time_func_length. }
  split; [exact Hlen|].
  split; [pose proof (Hlen 5)|pose proof (Hlen 0)]; lia.
Qed.

End Benchmark.

(** ** CacheClearer *)
Module CacheClearer.
Import Py.

(** What the function does to the outside, in the order it does it. *)
Inductive event : Type :=
| Printed (text : string)
| PrintedError (text : string)
| Synced
| Wrote (path content : string)
| Ran (command : string)
| Removed (path : string).

#[export] Instance event_eq_dec : EqDecision event.
Proof. solve_decision. Defined.

(** The part of the machine the function changes: the paths that exist
    (relative ones are relative to the working directory), [os.environ],
    and the journal of the events so far. *)
Record world : Type := {
  files : gset string;
  environ : gmap string string;
  journal : list event
}.

(** The part of the machine the function only reads.
    - [platform]: [sys.platform];
    - [search_path]: the executables found through [$PATH] (the function
      never consults it);
    - [can_write]: whether [open(path, 'w')] is permitted;
    - [exit_status command n]: what [os.system(command)] returns at its
      attempt number [n]. *)
Record host : Type := {
  platform : string;
  search_path : gset string;
  can_write : string -> bool;
  exit_status : string -> nat -> Z
}.

(** A computation on the world that returns or raises. *)
Definition action (A : Type) : Type := world -> result A * world.

Definition ret {A : Type} (a : A) : action A := fun w => (Ok a, w).

Definition bind {A B : Type} (m : action A) (k : A -> action B) : action B :=
  fun w =>
    match m w with
    | (Ok a, w') => k a w'
    | (Raise e, w') => (Raise e, w')
    end.

Notation "'let*' x ':=' m 'in' k" := (bind m (fun x => k))
  (at level 10, x pattern, m at level 100, k at level 200).

Definition record_events (events : list event) (w : world) : world :=
  {| files := files w; environ := environ w; journal := journal w ++ events |}.

Definition emit_event (e : event) : action unit :=
  fun w => (Ok tt, record_events [e] w).

(** [print(text)] *)
Definition print (text : string) : action unit := emit_event (Printed text).

(** Modelled from the spec: [ConsoleColors.print_error] lives in
    [ieegprep/utils/console.py], which is not among the sources; the
    specification has the failure reported to the user, so it is an event
    of the journal and nothing more. *)
Definition print_error (text : string) : action unit :=
  emit_event (PrintedError text).

(** [exit(status)] *)
Definition exit_ {A : Type} (status : Z) : action A :=
  fun w => (Raise (SystemExit status), w).

(** [os.path.exists(path)] *)
Definition os_path_exists (path : string) : action bool :=
  fun w => (Ok (bool_decide (path ∈ files w)), w).

(** [os.system(command)], at its attempt number [n]. *)
Definition os_system (h : host) (command : string) (n : nat) : action Z :=
  fun w => (Ok (exit_status h command n), record_events [Ran command] w).

(** [os.sync()] *)
Definition os_sync : action unit := emit_event Synced.

(** [with open(path, 'w') as f:] followed by one [f.write] per line. *)
Definition write_file (h : host) (path : string) (lines : list string)
  : action unit :=
  fun w =>
    if can_write h path then
      (Ok tt, {| files := {[path]} ∪ files w;
                 environ := environ w;
                 journal := journal w ++ map (Wrote path) lines |})
    else (Raise (PermissionError path), w).

(** [os.environ[key] = value] *)
Definition setenv (key value : string) : action unit :=
  fun w => (Ok tt, {| files := files w;
                      environ := <[key := value]> (environ w);
                      journal := journal w |}).

(** [os.remove(path)] *)
Definition os_remove (path : string) : action unit :=
  fun w =>
    if bool_decide (path ∈ files w) then
      (Ok tt, {| files := files w ∖ {[path]};
                 environ := environ w;
                 journal := journal w ++ [Removed path] |})
    else (Raise (FileNotFoundError path), w).

(** The double quote of the Python literals. *)
Definition dq : string := String (ascii_of_nat 34) "".

Definition rammap : string := "RAMMap64.exe".
Definition rammap_command : string := "RAMMap64.exe -Et".
Definition rammap_missing : string :=
  "Error: could not find RAMMAP64.exe to clear virtual memory." +:+ nl +:+
  "Download RAMMAP tools from Microsoft Sysinternals, and make sure the RAMMAP64.exe file is into the script directory (or can be found through the environment variable $PATH)".
Definition drop_caches : string := "/proc/sys/vm/drop_caches".
Definition helper_script : string := "./mac_prompt_pw.sh".
Definition helper_lines : list string :=
  [ "#!/bin/bash" +:+ nl;
    "pw=" +:+ dq +:+ "$(osascript -e 'Tell application " +:+ dq
    +:+ "System Events" +:+ dq +:+ " to display dialog " +:+ dq
    +:+ "Password to purge virtual memory:" +:+ dq +:+ " default answer "
    +:+ dq +:+ dq
    +:+ " with hidden answer' -e 'text returned of result' 2>/dev/null)"
    +:+ dq +:+ " && echo " +:+ dq +:+ "$pw" +:+ dq +:+ nl ].
Definition chmod_command : string := "chmod +x ./mac_prompt_pw.sh".
Definition purge_command : string := "sudo -A /usr/sbin/purge".
Definition purge_gave_up : string :=
  "Could not purge virtual memory after 5 tries, skipping".
Definition cleared : string := "Cleared virtual memory".

(** The [while retry_purge < 5] loop; it returns [retry_purge].  Every
    pass that does not leave the loop adds one to [retry_purge], so [fuel]
    passes are enough as soon as [retry_purge + fuel >= 5]. *)
Fixpoint purge_loop (h : host) (fuel retry_purge : nat) : action nat :=
  match fuel with
  | O => ret retry_purge
  | S fuel' =>
    if (retry_purge <? 5)%nat then
      let* status := os_system h purge_command retry_purge in
      if status =? 0 then ret retry_purge
      else
        let* _ := print "Retry purge" in
        purge_loop h fuel' (S retry_purge)
    else ret retry_purge
  end.

(** [clear_virtual_cache()] *)
Definition clear_virtual_cache (h : host) : action unit :=
  if bool_decide (platform h = "win32") then
    let* found := os_path_exists rammap in
    let* _ := (if negb found
               then let* _ := print_error rammap_missing in exit_ 1
               else ret tt) in
    let* _ := os_system h rammap_command 0 in
    print cleared
  else if bool_decide (platform h = "linux" \/ platform h = "linux2") then
    let* _ := os_sync in
    let* _ := write_file h drop_caches ["1" +:+ nl] in
    print cleared
  else if bool_decide (platform h = "darwin") then
    let* _ := write_file h helper_script helper_lines in
    let* _ := setenv "SUDO_ASKPASS" helper_script in
    let* _ := os_system h chmod_command 0 in
    let* retry_purge := purge_loop h 5 0 in
    let* _ := (if (retry_purge =? 5)%nat
               then print_error purge_gave_up
               else ret tt) in
    let* _ := os_remove helper_script in
    print cleared
  else ret tt.

(** Number of times [command] was run according to a journal. *)
Definition runs (command : string) (events : list event) : nat :=
  length (filter (fun e => e = Ran command) events).

(** The call asks the process to end. *)
Definition ends_process {A : Type} (r : result A) : Prop :=
  exists status : Z, r = Raise (SystemExit status).

(** *** Hosts and worlds to run the function on *)

Definition empty_world : world :=
  {| files := ∅; environ := ∅; journal := [] |}.

(** A platform that is none of the three. *)
Definition bsd_host : host :=
  {| platform := "freebsd13"; search_path := ∅;
     can_write := fun _ => true; exit_status := fun _ _ => 0 |}.

(** Windows, the executable nowhere. *)
Definition windows_host : host :=
  {| platform := "win32"; search_path := ∅;
     can_write := fun _ => true; exit_status := fun _ _ => 0 |}.

(** Windows, the executable on [$PATH] only. *)
Definition windows_host_on_path : host :=
  {| platform := "win32"; search_path := {[rammap]};
     can_write := fun _ => true; exit_status := fun _ _ => 0 |}.

(** macOS, where the purge command never succeeds. *)
Definition mac_host : host :=
  {| platform := "darwin"; search_path := ∅;
     can_write := fun _ => true; exit_status := fun _ _ => 1 |}.

(** macOS, where the purge command succeeds at its third attempt. *)
Definition mac_host_third : host :=
  {| platform := "darwin"; search_path := ∅;
     can_write := fun _ => true;
     exit_status := fun _ n => if (n <? 2)%nat then 1 else 0 |}.

(** Linux without the right to write the kernel's cache control. *)
Definition linux_host_unprivileged : host :=
  {| platform := "linux"; search_path := ∅;
     can_write := fun _ => false; exit_status := fun _ _ => 0 |}.

Example clear_virtual_cache_macos_third :
  let '(r, w) := clear_virtual_cache mac_host_third empty_world in
  r = Ok tt
  /\ bool_decide (helper_script ∈ files w) = false
  /\ journal w
     = map (Wrote helper_script) helper_lines
       ++ [Ran chmod_command;
           Ran purge_command; Printed "Retry purge";
           Ran purge_command; Printed "Retry purge";
           Ran purge_command;
           Removed helper_script; Printed cleared].
Proof. vm_compute. repeat split; reflexivity. Qed.

Example clear_virtual_cache_macos_exhausted :
  let '(r, w) := clear_virtual_cache mac_host empty_world in
  r = Ok tt
  /\ bool_decide (helper_script ∈ files w) = false
  /\ journal w
     = map (Wrote helper_script) helper_lines
       ++ [Ran chmod_command;
           Ran purge_command; Printed "Retry purge";
           Ran purge_command; Printed "Retry purge";
           Ran purge_command; Printed "Retry purge";
           Ran purge_command; Printed "Retry purge";
           Ran purge_command; Printed "Retry purge";
           PrintedError purge_gave_up;
           Removed helper_script; Printed cleared].
Proof. vm_compute. repeat split; reflexivity. Qed.

Example clear_virtual_cache_linux_unprivileged :
  clear_virtual_cache linux_host_unprivileged empty_world
  = (Raise (PermissionError drop_caches), record_events [Synced] empty_world).
Proof. reflexivity. Qed.

(** *** Journals *)

Lemma record_events_nil w : record_events [] w = w.
Proof. destruct w. unfold record_events. simpl. by rewrite app_nil_r. Qed.

Lemma record_events_app evs1 evs2 w :
  record_events evs2 (record_events evs1 w) = record_events (evs1 ++ evs2) w.
Proof. unfold record_events. simpl. by rewrite app_assoc. Qed.

Lemma runs_app command evs1 evs2 :
  runs command (evs1 ++ evs2) = (runs command evs1 + runs command evs2)%nat.
Proof. unfold runs. by rewrite filter_app, length_app. Qed.

Lemma runs_ran command evs : runs command (Ran command :: evs) = S (runs command evs).
Proof. unfold runs. rewrite filter_cons. by rewrite decide_True. Qed.

Lemma runs_other command e evs :
  e <> Ran command -> runs command (e :: evs) = runs command evs.
Proof. intros Hne. unfold runs. rewrite filter_cons. by rewrite decide_False. Qed.

Lemma runs_wrote command path lines :
  runs command (map (Wrote path) lines) = O.
Proof.
  induction lines as [|line lines IH]; [done|].
  simpl map. by rewrite runs_other.
Qed.

(** Creating a file and removing it leaves the other paths alone. *)
Lemma created_then_removed (path : string) (paths : gset string) :
  (path ∉ ({[path]} ∪ paths) ∖ {[path]})
  /\ ({[path]} ∪ paths) ∖ {[path]} = paths ∖ {[path]}.
Proof.
  split.
  - intros [_ Hout]%elem_of_difference. by apply Hout, elem_of_singleton.
  - apply set_eq. intros x.
    rewrite !elem_of_difference, elem_of_union, elem_of_singleton. tauto.
Qed.

(** *** The purge loop *)

(** More fuel than the loop can use changes nothing. *)
Lemma purge_loop_fuel h fuel retry_purge w :
  (5 - retry_purge <= fuel)%nat ->
  purge_loop h fuel retry_purge w
  = purge_loop h (5 - retry_purge) retry_purge w.
Proof.
  revert retry_purge w.
  induction fuel as [|fuel IH]; intros retry_purge w Hfuel.
  - by replace (5 - retry_purge)%nat with O by lia.
  - destruct (Nat.ltb_spec retry_purge 5) as [Hlt|Hge].
    + replace (5 - retry_purge)%nat with (S (4 - retry_purge)) by lia.
      simpl. destruct (Nat.ltb_spec retry_purge 5) as [_|?]; [|lia].
      unfold bind, os_system, print, emit_event.
      destruct (exit_status h purge_command retry_purge =? 0); [done|].
      rewrite IH by lia. reflexivity.
    + replace (5 - retry_purge)%nat with O by lia.
      simpl. by destruct (Nat.ltb_spec retry_purge 5) as [?|_]; [lia|].
Qed.

(** The loop returns; [retry_purge] ends between its start and 5; the purge
    command ran once per failed attempt and once more if an attempt
    succeeded; every attempt counted in [retry_purge] failed. *)
Lemma purge_loop_spec h fuel retry_purge w :
  (retry_purge + fuel = 5)%nat ->
  exists (r : nat) (evs : list event),
    purge_loop h fuel retry_purge w = (Ok r, record_events evs w)
    /\ (retry_purge <= r <= 5)%nat
    /\ runs purge_command evs
       = (r - retry_purge + (if (r <? 5)%nat then 1 else 0))%nat
    /\ (forall i, (retry_purge <= i < r)%nat -> exit_status h purge_command i <> 0)
    /\ ((r < 5)%nat -> exit_status h purge_command r = 0).
Proof.
  revert retry_purge w.
  induction fuel as [|fuel IH]; intros retry_purge w Hsum.
  - exists retry_purge, []. simpl. unfold ret. rewrite record_events_nil.
    split; [done|]. split; [lia|].
    assert (retry_purge = 5%nat) as -> by lia.
    split; [done|]. split; intros; lia.
  - simpl. destruct (Nat.ltb_spec retry_purge 5) as [Hlt|?]; [|lia].
    unfold bind at 1. unfold os_system.
    destruct (Z.eqb_spec (exit_status h purge_command retry_purge) 0)
      as [Hzero|Hnonzero].
    + exists retry_purge, [Ran purge_command]. unfold ret.
      split; [done|]. split; [lia|]. split.
      * rewrite runs_ran. destruct (Nat.ltb_spec retry_purge 5); [|lia].
        unfold runs. simpl. lia.
      * split; [intros; lia|done].
    + unfold bind, print, emit_event.
      destruct (IH (S retry_purge)
        (record_events [Printed "Retry purge"]
           (record_events [Ran purge_command] w)) ltac:(lia))
        as (r & evs & Hrun & Hr & Hcount & Hfailed & Hlast).
      exists r, ([Ran purge_command] ++ [Printed "Retry purge"] ++ evs).
      split.
      { rewrite Hrun, !record_events_app. by rewrite <- ?app_assoc. }
      split; [lia|]. split.
      { simpl app. rewrite runs_ran, runs_other by discriminate.
        rewrite Hcount. lia. }
      split; [|done].
      intros i Hi. destruct (decide (i = retry_purge)) as [->|Hne]; [done|].
      apply Hfailed. lia.
Qed.

(** *** The three claims on [clear_virtual_cache] *)

(** C2, as the code has it: on a platform that is none of ["win32"],
    ["linux"], ["linux2"] and ["darwin"], [clear_virtual_cache] returns
    normally and leaves the world as it found it: no file, no environment
    variable, no subprocess, no output. *)
Theorem clear_virtual_cache_unsupported :
  forall (h : host) (w : world),
    platform h <> "win32" ->
    platform h <> "linux" ->
    platform h <> "linux2" ->
    platform h <> "darwin" ->
    clear_virtual_cache h w = (Ok tt, w).
Proof.
  intros h w Hwin Hlinux Hlinux2 Hmac. unfold clear_virtual_cache.
  rewrite !bool_decide_eq_false_2 by tauto. reflexivity.
Qed.

Lemma clear_virtual_cache_unsupported_witness :
  clear_virtual_cache bsd_host empty_world = (Ok tt, empty_world).
Proof.
  apply (clear_virtual_cache_unsupported bsd_host empty_world);
    simpl; discriminate.
Defined.

(** The claim C2 fails as stated: on ["freebsd13"] the call does not fail,
    it returns. *)
Lemma clear_virtual_cache_unsupported_returns :
  fst (clear_virtual_cache bsd_host empty_world) = Ok tt
  /\ forall e : exception,
       fst (clear_virtual_cache bsd_host empty_world) <> Raise e.
Proof.
  assert (Hrun : clear_virtual_cache bsd_host empty_world = (Ok tt, empty_world))
    by reflexivity.
  rewrite Hrun. split; [done|]. intros e. discriminate.
Qed.

(** C5, as the code has it: on ["win32"], when the executable is neither
    in the working directory nor on the search path, the function reports
    the error to the user and calls [exit(1)], which ends the process; it
    runs nothing.  When the executable is in the working directory, the
    function runs it with [-Et], prints the confirmation and returns. *)
Theorem clear_virtual_cache_windows :
  forall (h : host) (w : world),
    platform h = "win32" ->
    (rammap ∉ files w -> rammap ∉ search_path h ->
       clear_virtual_cache h w
       = (Raise (SystemExit 1), record_events [PrintedError rammap_missing] w))
    /\ (rammap ∈ files w ->
          clear_virtual_cache h w
          = (Ok tt, record_events [Ran rammap_command; Printed cleared] w)).
Proof.
  intros h w Hwin. unfold clear_virtual_cache.
  rewrite bool_decide_eq_true_2 by done.
  split.
  - intros Hcwd _. unfold bind at 1. unfold os_path_exists.
    rewrite bool_decide_eq_false_2 by done. reflexivity.
  - intros Hcwd. unfold bind at 1. unfold os_path_exists.
    rewrite bool_decide_eq_true_2 by done.
    unfold bind, ret, os_system, print, emit_event. simpl.
    by rewrite record_events_app.
Qed.

Lemma clear_virtual_cache_windows_witness :
  platform windows_host = "win32"
  /\ (rammap ∉ files empty_world)
  /\ (rammap ∉ search_path windows_host)
  /\ clear_virtual_cache windows_host empty_world
     = (Raise (SystemExit 1),
        record_events [PrintedError rammap_missing] empty_world).
Proof.
  split; [reflexivity|].
  assert (Hcwd : rammap ∉ files empty_world) by apply not_elem_of_empty.
  assert (Hpath : rammap ∉ search_path windows_host) by apply not_elem_of_empty.
  split; [exact Hcwd|]. split; [exact Hpath|].
  exact (proj1 (clear_virtual_cache_windows windows_host empty_world eq_refl)
           Hcwd Hpath).
Defined.

(** The claim C5 fails as stated: with the executable nowhere, the call
    ends the process with status 1; and with the executable on the search
    path only, it ends the process all the same. *)
Lemma clear_virtual_cache_windows_exits :
  ends_process (fst (clear_virtual_cache windows_host empty_world))
  /\ (rammap ∈ search_path windows_host_on_path)
  /\ fst (clear_virtual_cache windows_host_on_path empty_world)
     = Raise (SystemExit 1).
Proof.
  assert (Hexit : forall h, platform h = "win32" ->
            fst (clear_virtual_cache h empty_world) = Raise (SystemExit 1)).
  { intros h Hwin. unfold clear_virtual_cache.
    rewrite bool_decide_eq_true_2 by done.
    unfold bind at 1. unfold os_path_exists.
    rewrite bool_decide_eq_false_2 by apply not_elem_of_empty. reflexivity. }
  split; [exists 1; by apply Hexit|].
  split; [simpl; by apply elem_of_singleton_2|by apply Hexit].
Qed.

(** C7: on ["darwin"], where the helper script can be written, the call
    returns; the purge command has run [attempts] times, between 1 and 5;
    every attempt but the last exited with a non-zero status, and the last
    exited with 0 unless it was the fifth; and, in both cases, the helper
    script does not exist afterwards. *)
Theorem clear_virtual_cache_macos :
  forall (h : host) (w : world),
    platform h = "darwin" ->
    can_write h helper_script = true ->
    exists (attempts : nat) (w' : world),
      clear_virtual_cache h w = (Ok tt, w')
      /\ (1 <= attempts <= 5)%nat
      /\ runs purge_command (journal w')
         = (runs purge_command (journal w) + attempts)%nat
      /\ (forall i, (S i < attempts)%nat -> exit_status h purge_command i <> 0)
      /\ ((attempts < 5)%nat ->
            exit_status h purge_command (attempts - 1) = 0)
      /\ (helper_script ∉ files w')
      /\ files w' = files w ∖ {[helper_script]}.
Proof.
  intros h w Hmac Hwrite. unfold clear_virtual_cache.
  rewrite bool_decide_eq_false_2 by (rewrite Hmac; discriminate).
  rewrite bool_decide_eq_false_2
    by (rewrite Hmac; intros [?|?]; discriminate).
  rewrite bool_decide_eq_true_2 by done.
  unfold bind at 1. unfold write_file. rewrite Hwrite.
  unfold bind at 1. unfold setenv. cbn [files environ journal].
  unfold bind at 1. unfold os_system at 1. unfold record_events at 1.
  cbn [files environ journal].
  set (w1 := {| files := {[helper_script]} ∪ files w;
                environ := <["SUDO_ASKPASS" := helper_script]> (environ w);
                journal := (journal w ++ map (Wrote helper_script) helper_lines)
                           ++ [Ran chmod_command] |}).
  destruct (purge_loop_spec h 5 0 w1 eq_refl)
    as (r & evs & Hrun & Hr & Hcount & Hfailed & Hlast).
  unfold bind at 1. rewrite Hrun.
  set (attempts := (r + (if (r <? 5)%nat then 1 else 0))%nat).
  assert (Hin : helper_script ∈ files w1)
    by (apply elem_of_union_l, elem_of_singleton; reflexivity).
  assert (Hruns : forall post,
            runs purge_command post = O ->
            runs purge_command (journal (record_events post (record_events evs w1)))
            = (runs purge_command (journal w) + attempts)%nat).
  { intros post Hpost. unfold record_events, w1. cbn [journal].
    rewrite !runs_app, Hpost, Hcount, runs_wrote.
    replace (runs purge_command [Ran chmod_command]) with O by reflexivity.
    subst attempts. lia. }
  assert (Hattempts : (1 <= attempts <= 5)%nat).
  { subst attempts. destruct (Nat.ltb_spec r 5); lia. }
  assert (Hnonzero : forall i, (S i < attempts)%nat ->
            exit_status h purge_command i <> 0).
  { intros i Hi. apply Hfailed. subst attempts.
    destruct (Nat.ltb_spec r 5); lia. }
  assert (Hzero : (attempts < 5)%nat ->
            exit_status h purge_command (attempts - 1) = 0).
  { intros Hlt. subst attempts. destruct (Nat.ltb_spec r 5) as [Hr5|Hr5]; [|lia].
    replace (r + 1 - 1)%nat with r by lia. by apply Hlast. }
  destruct (Nat.eqb_spec r 5) as [Hfive|Hless].
  - exists attempts,
      {| files := files w1 ∖ {[helper_script]};
         environ := environ w1;
         journal := journal (record_events
                      [PrintedError purge_gave_up; Removed helper_script;
                       Printed cleared] (record_events evs w1)) |}.
    split.
    { unfold bind, print_error, print, emit_event, os_remove.
      cbn [files environ journal record_events].
      rewrite bool_decide_eq_true_2 by exact Hin.
      unfold record_events. cbn [files environ journal].
      by rewrite <- !app_assoc. }
    split; [exact Hattempts|]. split; [by apply Hruns|].
    split; [exact Hnonzero|]. split; [exact Hzero|].
    exact (created_then_removed helper_script (files w)).
  - exists attempts,
      {| files := files w1 ∖ {[helper_script]};
         environ := environ w1;
         journal := journal (record_events
                      [Removed helper_script; Printed cleared]
                      (record_events evs w1)) |}.
    split.
    { unfold bind, ret, print, emit_event, os_remove.
      cbn [files environ journal record_events].
      rewrite bool_decide_eq_true_2 by exact Hin.
      unfold record_events. cbn [files environ journal].
      by rewrite <- !app_assoc. }
    split; [exact Hattempts|]. split; [by apply Hruns|].
    split; [exact Hnonzero|]. split; [exact Hzero|].
    exact (created_then_removed helper_script (files w)).
Qed.

Lemma clear_virtual_cache_macos_witness :
  platform mac_host = "darwin"
  /\ can_write mac_host helper_script = true
  /\ exists (attempts : nat) (w' : world),
       clear_virtual_cache mac_host empty_world = (Ok tt, w')
       /\ (1 <= attempts <= 5)%nat
       /\ runs purge_command (journal w')
          = (runs purge_command (journal empty_world) + attempts)%nat
       /\ (forall i, (S i < attempts)%nat ->
             exit_status mac_host purge_command i <> 0)
       /\ ((attempts < 5)%nat ->
             exit_status mac_host purge_command (attempts - 1) = 0)
       /\ (helper_script ∉ files w')
       /\ files w' = files empty_world ∖ {[helper_script]}.
Proof.
  split; [reflexivity|]. split; [reflexivity|].
  exact (clear_virtual_cache_macos mac_host empty_world eq_refl eq_refl).
Defined.

End CacheClearer.

(** ** PaddedFormatter: how lines are laid out *)
Module FormatterLayout.
Import PyStr Formatter.





(** While what is left fits with a full gap before every value, every gap
    is a full one. *)
Lemma loop_even separator sep_width width rendered padded_str :
  0 <= sep_width ->
  len padded_str + chain_len (len separator) rendered
    + Z.of_nat (length rendered) * sep_width <= width ->
  fold_left (emit separator sep_width width) rendered padded_str
  = padded_str
    +:+ spread separator (replicate (length rendered) (Z.to_nat sep_width))
          rendered.
Proof.
  intros Hg. revert padded_str.
  induction rendered as [|p rendered IH]; intros padded_str Hfit.
  - simpl. by rewrite sapp_nil_r.
  - simpl fold_left. rewrite chain_len_cons in Hfit.
    pose proof (chain_len_nonneg (len separator) rendered (len_nonneg separator)).
    pose proof (len_nonneg separator). pose proof (len_nonneg p).
    assert (Hemit : emit separator sep_width width padded_str p
                    = padded_str +:+ separator
                      +:+ spaces (Z.to_nat sep_width) +:+ p).
    { rewrite emit_shape. unfold gap_of. rewrite len_app.
      destruct (Z.gtb_spec (len padded_str + len separator + sep_width + len p)
                  width) as [?|_]; [|reflexivity].
      simpl length in Hfit. nia. }
    rewrite Hemit, IH.
    + simpl. by rewrite !sapp_assoc.
    + rewrite !len_app, len_spaces. simpl length in Hfit. nia.
Qed.



Lemma natural_length_cons2 {A : Type} `{PyNumber A} (v0 v1 : A) (rest : list A)
    (pos_space : bool) (separator : string) :
  natural_length (v0 :: v1 :: rest) pos_space separator
  = len (render pos_space v0)
    + chain_len (len separator) (map (render pos_space) (v1 :: rest)).
Proof.
  unfold natural_length, chain_len. rewrite length_map.
  simpl total_len. simpl length.
  replace (S (S (length rest)) - 1)%nat with (S (length rest)) by lia. lia.
Qed.

Lemma sep_width_of_even {A : Type} `{PyNumber A} (v0 v1 : A) (rest : list A)
    (width : Z) (pos_space : bool) (separator : string) (k : Z) :
  1 <= k ->
  width = natural_length (v0 :: v1 :: rest) pos_space separator
          + Z.of_nat (S (length rest)) * k ->
  sep_width_of (v0 :: v1 :: rest) width pos_space separator = k.
Proof.
  intros Hk Hw. unfold sep_width_of, compute_sep_width, ceil_div.
  unfold natural_length in Hw. simpl length in *.
  replace (S (S (length rest)) - 1)%nat with (S (length rest)) in Hw by lia.
  set (T := total_len (map (render pos_space) (v0 :: v1 :: rest))) in *.
  set (n := Z.of_nat (S (length rest))) in *.
  assert (Hn : 1 <= n) by (subst n; lia).
  replace (Z.of_nat (S (S (length rest))) - 1) with n by (subst n; lia).
  replace (width - T - n * len separator) with (n * k) by lia.
  destruct (Z.ltb_spec (n * k) n) as [?|_]; [nia|].
  replace (- (n * k)) with ((- k) * n) by lia.
  rewrite Z.div_mul by lia. lia.
Qed.



(** When the spare width is [k >= 1] characters for each of the gaps, every
    gap is exactly [k] spaces. *)
Theorem numbers_to_padded_string_even_gaps :
  forall (A : Type) (N : PyNumber A) (v0 v1 : A) (rest : list A) (width : Z)
         (pos_space : bool) (separator : string) (k : Z),
    1 <= k ->
    width = natural_length (v0 :: v1 :: rest) pos_space separator
            + Z.of_nat (S (length rest)) * k ->
    numbers_to_padded_string (v0 :: v1 :: rest) width pos_space separator
    = render pos_space v0
      +:+ spread separator (replicate (S (length rest)) (Z.to_nat k))
            (map (render pos_space) (v1 :: rest)).
Proof.
  intros A N v0 v1 rest width pos_space separator k Hk Hw.
  rewrite numbers_to_padded_string_many.
  rewrite (sep_width_of_even v0 v1 rest width pos_space separator k Hk Hw).
  rewrite loop_even; [by rewrite length_map|lia|].
  rewrite natural_length_cons2 in Hw. rewrite length_map. simpl length. lia.
Qed.

Lemma numbers_to_padded_string_even_gaps_witness :
  1 <= 3
  /\ 16 = natural_length [1; 2; 3] true ", " + Z.of_nat (S (length [3])) * 3
  /\ numbers_to_padded_string [1; 2; 3] 16 true ", "
     = " 1" +:+ spread ", " [3%nat; 3%nat] [" 2"; " 3"].
Proof.
  split; [lia|]. split; [reflexivity|].
  apply (numbers_to_padded_string_even_gaps Z Z_PyNumber 1 2 [3] 16 true ", " 3).
  - lia.
  - reflexivity.
Defined.



(** With [pos_space] set, an integer and its opposite are rendered with the
    same digits in the same columns: a space stands where the minus sign
    would. *)
Theorem number_to_padded_string_sign_column :
  forall p : positive,
    exists digits : string,
      number_to_padded_string (Z.pos p) 0 true = String " " digits
      /\ number_to_padded_string (Z.neg p) 0 true = String "-" digits
      /\ number_to_padded_string (Z.pos p) 0 false = digits.
Proof.
  intros p. exists (NilZero.string_of_uint (Pos.to_uint p)).
  assert (Hpos : str_of_Z (Z.pos p) = NilZero.string_of_uint (Pos.to_uint p)).
  { unfold str_of_Z. simpl. unfold NilZero.string_of_int.
    reflexivity. }
  assert (Hneg : str_of_Z (Z.neg p)
                 = String "-" (NilZero.string_of_uint (Pos.to_uint p))).
  { unfold str_of_Z. simpl. unfold NilZero.string_of_int.
    reflexivity. }
  unfold number_to_padded_string. simpl. rewrite Hpos, Hneg.
  repeat split; reflexivity.
Qed.



End FormatterLayout.

(** ** GuardedAllocator: every way a call can end *)
Module AllocatorOutcomes.
Import Py PyStr Allocator.

(** What [on_exception] leaves behind. *)
Lemma on_exception_outcome {T : Type} (mem : option svmem) (needed : Z)
    (e : exception) (log : list string) :
  match @on_exception T mem needed e log with
  | (Ok _, _) => False
  | (Raise e', log') =>
      if is_MemoryError e'
      then e' = MemoryError out_of_memory_message
           /\ is_MemoryError e = true
           /\ exists line : string, log' = log ++ [line]
      else log' = log
  end.
Proof.
  unfold on_exception. destruct (is_MemoryError e) eqn:He.
  - destruct mem as [m|]; [|simpl; eauto].
    destruct (quantified_diagnostic m needed) as [line|e'] eqn:Hline.
    + simpl. eauto.
    + by rewrite (quantified_diagnostic_raises _ _ _ Hline).
  - by rewrite He.
Qed.

(** Whatever the host does: an array comes back only if the memory query
    answered with more available bytes than the array needs, and then it is
    completely filled and nothing was logged; a [MemoryError] leaves the
    function only with the fixed message and after exactly one line was
    logged; any other exception leaves it with nothing logged. *)
Theorem allocate_array_outcomes :
  forall (T : Type) (h : host) (d : dimensions) (fill_value : T) (dt : dtype)
         (log : list string),
    match allocate_array h d fill_value dt log with
    | (Ok data, log') =>
        log' = log
        /\ shape data = shape_of d
        /\ elements data
           = Some (replicate (Z.to_nat (product (shape_of d))) fill_value)
        /\ exists mem : svmem,
             query_memory h = Ok mem
             /\ product (shape_of d) * itemsize dt < available mem
    | (Raise e, log') =>
        if is_MemoryError e
        then e = MemoryError out_of_memory_message
             /\ exists line : string, log' = log ++ [line]
        else log' = log
    end.
Proof.
  intros T h d fill_value dt log. unfold allocate_array.
  destruct (np_empty h d dt) as [data|e] eqn:Hnp.
  - apply np_empty_inv in Hnp. subst data.
    cbv zeta. unfold nbytes. cbn [shape element_type].
    destruct (query_memory h) as [mem|e] eqn:Hq.
    + destruct (Z.leb_spec (available mem) (product (shape_of d) * itemsize dt))
        as [Hle|Hgt].
      * pose proof (@on_exception_outcome T (Some mem)
                      (product (shape_of d) * itemsize dt)
                      (MemoryError "") log) as Hout.
        destruct (on_exception (Some mem) _ (MemoryError "") log)
          as [[data|e'] log']; [done|].
        destruct (is_MemoryError e'); [|done].
        destruct Hout as (-> & _ & Hlog). eauto.
      * simpl. split; [done|]. split; [done|]. split; [done|].
        exists mem. split; [done|lia].
    + pose proof (@on_exception_outcome T None
                    (product (shape_of d) * itemsize dt) e log) as Hout.
      destruct (on_exception None _ e log) as [[data|e'] log']; [done|].
      destruct (is_MemoryError e'); [|done].
      destruct Hout as (-> & _ & Hlog). eauto.
  - pose proof (@on_exception_outcome T None 0 e log) as Hout.
    destruct (on_exception None 0 e log) as [[data|e'] log']; [done|].
    destruct (is_MemoryError e'); [|done].
    destruct Hout as (-> & _ & Hlog). eauto.
Qed.

End AllocatorOutcomes.

(** ** Benchmark: what a run measures and what it calls *)
Module BenchmarkRuns.
Import Benchmark.

Section Runs.
Context {W F : Type}.
Variable time_time : W -> F * W.
Variables (zero thousand : F) (fsub fmul : F -> F -> F).
Variables np_mean np_std np_min np_max : list F -> F.
Variable fun_ : W -> W.
Variable pre_fun : option (W -> W).

Abbreviation iteration :=
  (Benchmark.iteration time_time thousand fsub fmul fun_ pre_fun).
Abbreviation time_func :=
  (Benchmark.time_func time_time zero thousand fsub fmul
     np_mean np_std np_min np_max fun_ pre_fun).

(** The number of passes of the loop. *)
Definition passes (loop : Z) : nat := Z.to_nat (Z.max 1 loop).

Lemma time_func_unfold loop w :
  time_func loop w
  = let '(ts, w') :=
      fold_left iteration (seq 0 (passes loop))
        (replicate (passes loop) zero, w) in
    ({| mean := np_mean ts; std := np_std ts;
        range := (np_min ts, np_max ts); times := ts |}, w').
Proof.
  unfold Benchmark.time_func, passes.
  replace (if loop <? 1 then 1 else loop) with (Z.max 1 loop); [done|].
  destruct (Z.ltb_spec loop 1); lia.
Qed.

(** Storing at the first slot that is still zero. *)
Lemma insert_next (v : F) (i m : nat) :
  <[i := v]> (replicate i v ++ replicate (S m) zero)
  = replicate (S i) v ++ replicate m zero.
Proof.
  induction i as [|i IH]; [done|]. simpl in *. by f_equal.
Qed.

Section ConstantDuration.
(** The clock is a reading of the state that reading does not change, and
    the operation always advances it by [duration]. *)
Variable clock : W -> F.
Variable duration : F.
Hypothesis time_time_reads : forall w, time_time w = (clock w, w).
Hypothesis fun_takes : forall w, fsub (clock (fun_ w)) (clock w) = duration.

Lemma loop_constant (m i : nat) (w : W) :
  fst (fold_left iteration (seq i m)
         (replicate i (fmul duration thousand) ++ replicate m zero, w))
  = replicate (i + m) (fmul duration thousand).
Proof.
  revert i w. induction m as [|m IH]; intros i w.
  - simpl. by rewrite app_nil_r, Nat.add_0_r.
  - cbn [seq fold_left].
    assert (Hstep : iteration
              (replicate i (fmul duration thousand) ++ replicate (S m) zero, w) i
            = (replicate (S i) (fmul duration thousand) ++ replicate m zero,
               fun_ (match pre_fun with Some pre => pre w | None => w end))).
    { unfold Benchmark.iteration.
      by rewrite !time_time_reads, fun_takes, insert_next. }
    rewrite Hstep, IH. f_equal. lia.
Qed.

Lemma time_func_constant loop w :
  times (fst (time_func loop w))
  = replicate (passes loop) (fmul duration thousand).
Proof.
  rewrite time_func_unfold.
  pose proof (loop_constant (passes loop) 0 w) as Hloop.
  simpl in Hloop.
  destruct (fold_left _ _ _) as [ts w']. simpl in *. exact Hloop.
Qed.

End ConstantDuration.

Section Counting.
(** A quantity of the state that the operation raises by [a], the
    pre-operation by [b] and a reading of the clock by [c]. *)
Variable measure : W -> Z.
Variables a b c : Z.
Hypothesis fun_adds : forall w, measure (fun_ w) = measure w + a.
Hypothesis pre_adds :
  forall pre, pre_fun = Some pre -> forall w, measure (pre w) = measure w + b.
Hypothesis time_adds : forall w, measure (snd (time_time w)) = measure w + c.

Lemma iteration_adds ts w i :
  measure (snd (iteration (ts, w) i))
  = measure w + (a + match pre_fun with Some _ => b | None => 0 end + 2 * c).
Proof.
  unfold Benchmark.iteration.
  set (w1 := match pre_fun with Some pre => pre w | None => w end).
  assert (H1 : measure w1
               = measure w + match pre_fun with Some _ => b | None => 0 end).
  { subst w1. destruct pre_fun as [pre|]; [by apply pre_adds|lia]. }
  pose proof (time_adds w1) as H2.
  destruct (time_time w1) as [t1 w2]. simpl in H2.
  pose proof (time_adds (fun_ w2)) as H3.
  destruct (time_time (fun_ w2)) as [t2 w3]. simpl in *.
  rewrite H3, fun_adds, H2, H1. lia.
Qed.

Lemma loop_adds indices ts w :
  measure (snd (fold_left iteration indices (ts, w)))
  = measure w
    + Z.of_nat (length indices)
      * (a + match pre_fun with Some _ => b | None => 0 end + 2 * c).
Proof.
  revert ts w. induction indices as [|i indices IH]; intros ts w.
  - simpl. lia.
  - cbn [fold_left].
    pose proof (iteration_adds ts w i) as Hstep.
    destruct (iteration (ts, w) i) as [ts' w']. simpl in Hstep.
    rewrite IH, Hstep. simpl length. lia.
Qed.

Lemma time_func_adds loop w :
  measure (snd (time_func loop w))
  = measure w
    + Z.max 1 loop
      * (a + match pre_fun with Some _ => b | None => 0 end + 2 * c).
Proof.
  rewrite time_func_unfold.
  pose proof (loop_adds (seq 0 (passes loop)) (replicate (passes loop) zero) w)
    as Hloop.
  destruct (fold_left _ _ _) as [ts w']. simpl in *.
  rewrite Hloop, length_seq. unfold passes. lia.
Qed.

End Counting.
End Runs.

(** When reading the clock leaves the state alone and the operation always
    advances the clock by [duration], every sample is [duration * 1000],
    whatever the pre-operation does to the clock. *)
Theorem time_func_excludes_pre_fun :
  forall (W F : Type) (time_time : W -> F * W) (zero thousand : F)
         (fsub fmul : F -> F -> F) (np_mean np_std np_min np_max : list F -> F)
         (fun_ : W -> W) (pre_fun : option (W -> W))
         (clock : W -> F) (duration : F) (loop : Z) (w : W),
    (forall w, time_time w = (clock w, w)) ->
    (forall w, fsub (clock (fun_ w)) (clock w) = duration) ->
    times (fst (time_func time_time zero thousand fsub fmul
                  np_mean np_std np_min np_max fun_ pre_fun loop w))
    = replicate (Z.to_nat (Z.max 1 loop)) (fmul duration thousand).
Proof.
  intros W F time_time zero thousand fsub fmul np_mean np_std np_min np_max
    fun_ pre_fun clock duration loop w Hread Htakes.
  exact (time_func_constant time_time zero thousand fsub fmul
           np_mean np_std np_min np_max fun_ pre_fun clock duration
           Hread Htakes loop w).
Qed.

Lemma time_func_excludes_pre_fun_witness :
  times (fst (time_func (fun w : Z => (w, w)) 0 1000 Z.sub Z.mul
                (fun _ => 0) (fun _ => 0) (fun _ => 0) (fun _ => 0)
                (fun w => w + 7) (Some (fun w => w + 100)) 3 0))
  = [7000; 7000; 7000].
Proof.
  apply (time_func_excludes_pre_fun Z Z (fun w : Z => (w, w)) 0 1000 Z.sub Z.mul
           (fun _ => 0) (fun _ => 0) (fun _ => 0) (fun _ => 0)
           (fun w => w + 7) (Some (fun w => w + 100)) (fun w => w) 7 3 0).
  - intros w. reflexivity.
  - intros w. lia.
Defined.

(** A quantity of the state that the operation raises by [a], the
    pre-operation by [b] and each reading of the clock by [c] ends
    [max(1, loop) * (a + b + 2 c)] higher ([b] left out without a
    pre-operation): each pass calls the pre-operation once, the operation
    once and the clock twice, and nothing else. *)
Theorem time_func_calls :
  forall (W F : Type) (time_time : W -> F * W) (zero thousand : F)
         (fsub fmul : F -> F -> F) (np_mean np_std np_min np_max : list F -> F)
         (fun_ : W -> W) (pre_fun : option (W -> W))
         (measure : W -> Z) (a b c : Z) (loop : Z) (w : W),
    (forall w, measure (fun_ w) = measure w + a) ->
    (forall pre, pre_fun = Some pre ->
       forall w, measure (pre w) = measure w + b) ->
    (forall w, measure (snd (time_time w)) = measure w + c) ->
    measure (snd (time_func time_time zero thousand fsub fmul
                    np_mean np_std np_min np_max fun_ pre_fun loop w))
    = measure w
      + Z.max 1 loop
        * (a + (match pre_fun with Some _ => b | None => 0 end) + 2 * c).
Proof.
  intros W F time_time zero thousand fsub fmul np_mean np_std np_min np_max
    fun_ pre_fun measure a b c loop w Hfun Hpre Htime.
  exact (time_func_adds time_time zero thousand fsub fmul
           np_mean np_std np_min np_max fun_ pre_fun measure a b c
           Hfun Hpre Htime loop w).
Qed.

Lemma time_func_calls_witness :
  snd (time_func (fun w : Z => (0, w + 100)) 0 1000 Z.sub Z.mul
         (fun _ => 0) (fun _ => 0) (fun _ => 0) (fun _ => 0)
         (fun w => w + 1) (Some (fun w => w + 10)) 3 0)
  = 0 + Z.max 1 3 * (1 + 10 + 2 * 100).
Proof.
  apply (time_func_calls Z Z (fun w : Z => (0, w + 100)) 0 1000 Z.sub Z.mul
           (fun _ => 0) (fun _ => 0) (fun _ => 0) (fun _ => 0)
           (fun w => w + 1) (Some (fun w => w + 10)) (fun w => w) 1 10 100 3 0).
  - intros w. reflexivity.
  - intros pre Hpre w. injection Hpre as <-. reflexivity.
  - intros w. reflexivity.
Defined.

End BenchmarkRuns.

(** ** CacheClearer: what each branch leaves behind *)
Module CacheClearerEffects.
Import Py CacheClearer.

(** The events of the purge loop. *)
Definition loop_event (e : event) : Prop :=
  e = Ran purge_command \/ e = Printed "Retry purge".

Lemma purge_loop_events h fuel retry_purge w :
  exists (r : nat) (evs : list event),
    purge_loop h fuel retry_purge w = (Ok r, record_events evs w)
    /\ Forall loop_event evs.
Proof.
  revert retry_purge w. induction fuel as [|fuel IH]; intros retry_purge w.
  - exists retry_purge, []. simpl. unfold ret. by rewrite record_events_nil.
  - simpl. destruct (retry_purge <? 5)%nat.
    + unfold bind at 1. unfold os_system.
      destruct (exit_status h purge_command retry_purge =? 0).
      * exists retry_purge, [Ran purge_command]. unfold ret. split; [done|].
        repeat constructor.
      * unfold bind, print, emit_event.
        destruct (IH (S retry_purge)
          (record_events [Printed "Retry purge"]
             (record_events [Ran purge_command] w)))
          as (r & evs & Hrun & Hevs).
        exists r, ([Ran purge_command] ++ [Printed "Retry purge"] ++ evs).
        split.
        { rewrite Hrun, !record_events_app. by rewrite <- ?app_assoc. }
        simpl. constructor; [by left|]. constructor; [by right|]. done.
    + exists retry_purge, []. unfold ret. by rewrite record_events_nil.
Qed.

Lemma record_events_inj evs1 evs2 w :
  record_events evs1 w = record_events evs2 w -> evs1 = evs2.
Proof.
  unfold record_events. intros Heq. injection Heq as Heq.
  by apply app_inv_head in Heq.
Qed.

(** The world a call on macOS ends in, when the helper script can be
    written: [r] is the final [retry_purge], [evs] the events of the loop. *)
Lemma macos_run (h : host) (w : world) :
  platform h = "darwin" ->
  can_write h helper_script = true ->
  exists (r : nat) (evs : list event),
    (r = 5%nat <-> forall i, (i < 5)%nat -> exit_status h purge_command i <> 0)
    /\ Forall loop_event evs
    /\ clear_virtual_cache h w
       = (Ok tt,
          {| files := files w ∖ {[helper_script]};
             environ := <["SUDO_ASKPASS" := helper_script]> (environ w);
             journal :=
               journal w
               ++ map (Wrote helper_script) helper_lines
               ++ [Ran chmod_command] ++ evs
               ++ (if (r =? 5)%nat then [PrintedError purge_gave_up] else [])
               ++ [Removed helper_script; Printed cleared] |}).
Proof.
  intros Hmac Hwrite. unfold clear_virtual_cache.
  rewrite bool_decide_eq_false_2 by (rewrite Hmac; discriminate).
  rewrite bool_decide_eq_false_2
    by (rewrite Hmac; intros [?|?]; discriminate).
  rewrite bool_decide_eq_true_2 by done.
  unfold bind at 1. unfold write_file. rewrite Hwrite.
  unfold bind at 1. unfold setenv. cbn [files environ journal].
  unfold bind at 1. unfold os_system at 1. unfold record_events at 1.
  cbn [files environ journal].
  set (w1 := {| files := {[helper_script]} ∪ files w;
                environ := <["SUDO_ASKPASS" := helper_script]> (environ w);
                journal := (journal w ++ map (Wrote helper_script) helper_lines)
                           ++ [Ran chmod_command] |}).
  destruct (purge_loop_spec h 5 0 w1 eq_refl)
    as (r & evs & Hrun & Hr & _ & Hfailed & Hlast).
  destruct (purge_loop_events h 5 0 w1) as (r' & evs' & Hrun' & Hevs).
  rewrite Hrun in Hrun'.
  assert (r' = r) as -> by congruence.
  assert (evs' = evs) as ->.
  { symmetry. apply (record_events_inj evs evs' w1). congruence. }
  exists r, evs. split; [|split; [exact Hevs|]].
  { split.
    - intros -> i Hi. apply Hfailed. lia.
    - intros Hall. destruct (decide (r = 5%nat)) as [|Hne]; [done|].
      exfalso. apply (Hall r); [lia|]. apply Hlast. lia. }
  unfold bind at 1. rewrite Hrun.
  assert (Hin : helper_script ∈ files w1)
    by (apply elem_of_union_l, elem_of_singleton; reflexivity).
  destruct (created_then_removed helper_script (files w)) as [_ Hfiles].
  destruct (r =? 5)%nat.
  - unfold bind, print_error, print, emit_event, os_remove.
    cbn [files environ journal record_events].
    rewrite bool_decide_eq_true_2 by exact Hin.
    unfold record_events, w1. cbn [files environ journal].
    rewrite Hfiles. by rewrite <- !app_assoc.
  - unfold bind, ret, print, emit_event, os_remove.
    cbn [files environ journal record_events].
    rewrite bool_decide_eq_true_2 by exact Hin.
    unfold record_events, w1. cbn [files environ journal].
    rewrite Hfiles. by rewrite <- !app_assoc.
Qed.

Lemma windows_run (h : host) (w : world) :
  platform h = "win32" ->
  clear_virtual_cache h w
  = if bool_decide (rammap ∈ files w)
    then (Ok tt, record_events [Ran rammap_command; Printed cleared] w)
    else (Raise (SystemExit 1), record_events [PrintedError rammap_missing] w).
Proof.
  intros Hwin. unfold clear_virtual_cache.
  rewrite bool_decide_eq_true_2 by done.
  unfold bind at 1. unfold os_path_exists.
  destruct (bool_decide (rammap ∈ files w)); [|reflexivity].
  unfold bind, ret, os_system, print, emit_event. simpl.
  by rewrite record_events_app.
Qed.

Lemma linux_run (h : host) (w : world) :
  platform h = "linux" \/ platform h = "linux2" ->
  clear_virtual_cache h w
  = if can_write h drop_caches
    then (Ok tt,
          {| files := {[drop_caches]} ∪ files w;
             environ := environ w;
             journal := journal w
                        ++ [Synced; Wrote drop_caches ("1" +:+ nl);
                            Printed cleared] |})
    else (Raise (PermissionError drop_caches), record_events [Synced] w).
Proof.
  intros Hlinux. unfold clear_virtual_cache.
  rewrite bool_decide_eq_false_2
    by (destruct Hlinux as [-> | ->]; discriminate).
  rewrite bool_decide_eq_true_2 by done.
  unfold bind, os_sync, emit_event, write_file, print.
  cbn [files environ journal record_events].
  destruct (can_write h drop_caches); [|reflexivity].
  unfold emit_event, record_events. cbn [files environ journal map].
  by rewrite <- !app_assoc.
Qed.

Lemma macos_blocked (h : host) (w : world) :
  platform h = "darwin" ->
  can_write h helper_script = false ->
  clear_virtual_cache h w = (Raise (PermissionError helper_script), w).
Proof.
  intros Hmac Hwrite. unfold clear_virtual_cache.
  rewrite bool_decide_eq_false_2 by (rewrite Hmac; discriminate).
  rewrite bool_decide_eq_false_2
    by (rewrite Hmac; intros [?|?]; discriminate).
  rewrite bool_decide_eq_true_2 by done.
  unfold bind at 1. unfold write_file. by rewrite Hwrite.
Qed.

Lemma unsupported_run (h : host) (w : world) :
  platform h <> "win32" ->
  ~ (platform h = "linux" \/ platform h = "linux2") ->
  platform h <> "darwin" ->
  clear_virtual_cache h w = (Ok tt, w).
Proof.
  intros Hwin Hlinux Hmac. unfold clear_virtual_cache.
  by rewrite !bool_decide_eq_false_2 by done.
Qed.

(** On ["linux"] and ["linux2"] alike, the function syncs first; if the
    kernel's cache control can be written it then writes ["1\n"] to it and
    prints the confirmation; if not, the [PermissionError] of [open] leaves
    the function after the sync, and nothing is written or printed. *)
Theorem clear_virtual_cache_linux :
  forall (h : host) (w : world),
    platform h = "linux" \/ platform h = "linux2" ->
    clear_virtual_cache h w
    = if can_write h drop_caches
      then (Ok tt,
            {| files := {[drop_caches]} ∪ files w;
               environ := environ w;
               journal := journal w
                          ++ [Synced; Wrote drop_caches ("1" +:+ nl);
                              Printed cleared] |})
      else (Raise (PermissionError drop_caches), record_events [Synced] w).
Proof. intros h w Hlinux. by apply linux_run. Qed.

Lemma clear_virtual_cache_linux_witness :
  (platform linux_host_unprivileged = "linux"
   \/ platform linux_host_unprivileged = "linux2")
  /\ clear_virtual_cache linux_host_unprivileged empty_world
     = (Raise (PermissionError drop_caches), record_events [Synced] empty_world).
Proof.
  split; [by left|].
  exact (clear_virtual_cache_linux linux_host_unprivileged empty_world
           (or_introl eq_refl)).
Defined.

(** On ["darwin"], where the helper script can be written: the message that
    purging was given up is printed exactly when all five attempts exited
    with a non-zero status, and in either case the call ends by removing
    the helper script and printing the confirmation. *)
Theorem clear_virtual_cache_macos_messages :
  forall (h : host) (w : world),
    platform h = "darwin" ->
    can_write h helper_script = true ->
    exists evs : list event,
      journal (snd (clear_virtual_cache h w)) = journal w ++ evs
      /\ (PrintedError purge_gave_up ∈ evs
          <-> forall i, (i < 5)%nat -> exit_status h purge_command i <> 0)
      /\ exists before : list event,
           evs = before ++ [Removed helper_script; Printed cleared].
Proof.
  intros h w Hmac Hwrite.
  destruct (macos_run h w Hmac Hwrite) as (r & evs & Hfive & Hevs & ->).
  eexists. split; [reflexivity|]. split.
  - rewrite <- Hfive. rewrite !elem_of_app. split.
    + intros [Hin|[Hin|[Hin|[Hin|Hin]]]].
      * apply list_elem_of_fmap in Hin as (line & Heq & _). discriminate.
      * apply list_elem_of_singleton in Hin. discriminate.
      * rewrite Forall_forall in Hevs. apply Hevs in Hin as [?|?]; discriminate.
      * destruct (Nat.eqb_spec r 5); [done|]. by apply elem_of_nil in Hin.
      * apply elem_of_cons in Hin as [?|Hin]; [discriminate|].
        apply list_elem_of_singleton in Hin. discriminate.
    + intros ->. right. right. right. left. simpl.
      by apply list_elem_of_singleton.
  - eexists. by rewrite !app_assoc.
Qed.

Lemma clear_virtual_cache_macos_messages_witness :
  platform mac_host = "darwin"
  /\ can_write mac_host helper_script = true
  /\ exists evs : list event,
       journal (snd (clear_virtual_cache mac_host empty_world))
       = journal empty_world ++ evs
       /\ (PrintedError purge_gave_up ∈ evs
           <-> forall i, (i < 5)%nat ->
                 exit_status mac_host purge_command i <> 0)
       /\ exists before : list event,
            evs = before ++ [Removed helper_script; Printed cleared].
Proof.
  split; [reflexivity|]. split; [reflexivity|].
  exact (clear_virtual_cache_macos_messages mac_host empty_world
           eq_refl eq_refl).
Defined.

(** On ["darwin"], where the helper script can be written, the call leaves
    [SUDO_ASKPASS] set in the process environment to the path of the helper
    script, which it has removed; no other variable changes. *)
Theorem clear_virtual_cache_macos_environment :
  forall (h : host) (w : world),
    platform h = "darwin" ->
    can_write h helper_script = true ->
    let w' := snd (clear_virtual_cache h w) in
    environ w' = <["SUDO_ASKPASS" := helper_script]> (environ w)
    /\ environ w' !! "SUDO_ASKPASS" = Some helper_script
    /\ (helper_script ∉ files w').
Proof.
  intros h w Hmac Hwrite.
  destruct (macos_run h w Hmac Hwrite) as (r & evs & _ & _ & ->).
  cbn [snd environ files]. split; [done|]. split.
  - apply lookup_insert_eq.
  - intros [_ Hout]%elem_of_difference. by apply Hout, elem_of_singleton.
Qed.

Lemma clear_virtual_cache_macos_environment_witness :
  platform mac_host_third = "darwin"
  /\ can_write mac_host_third helper_script = true
  /\ environ (snd (clear_virtual_cache mac_host_third empty_world))
     = <["SUDO_ASKPASS" := helper_script]> (environ empty_world)
  /\ environ (snd (clear_virtual_cache mac_host_third empty_world))
     !! "SUDO_ASKPASS" = Some helper_script
  /\ (helper_script ∉ files (snd (clear_virtual_cache mac_host_third empty_world))).
Proof.
  split; [reflexivity|]. split; [reflexivity|].
  exact (clear_virtual_cache_macos_environment mac_host_third empty_world
           eq_refl eq_refl).
Defined.

(** On every platform and however the call ends: no file other than the
    helper script disappears, no environment variable other than
    [SUDO_ASKPASS] changes, and the journal only grows. *)
Theorem clear_virtual_cache_frame :
  forall (h : host) (w : world),
    let w' := snd (clear_virtual_cache h w) in
    (forall path : string,
       path <> helper_script -> path ∈ files w -> path ∈ files w')
    /\ (forall key : string,
          key <> "SUDO_ASKPASS" -> environ w' !! key = environ w !! key)
    /\ exists evs : list event, journal w' = journal w ++ evs.
Proof.
  intros h w w'. subst w'.
  destruct (decide (platform h = "win32")) as [Hwin|Hwin].
  { rewrite (windows_run h w Hwin).
    destruct (bool_decide (rammap ∈ files w)); simpl;
      (split; [done|]; split; [done|]; by eexists). }
  destruct (decide (platform h = "linux" \/ platform h = "linux2"))
    as [Hlinux|Hlinux].
  { rewrite (linux_run h w Hlinux).
    destruct (can_write h drop_caches); simpl.
    - split; [intros path _ Hin; by apply elem_of_union_r|].
      split; [done|]. by eexists.
    - split; [done|]. split; [done|]. by eexists. }
  destruct (decide (platform h = "darwin")) as [Hmac|Hmac].
  { destruct (can_write h helper_script) eqn:Hwrite.
    - destruct (macos_run h w Hmac Hwrite) as (r & evs & _ & _ & ->).
      cbn [snd files environ journal].
      split.
      { intros path Hne Hin. apply elem_of_difference. split; [done|].
        intros Heq%elem_of_singleton. done. }
      split; [intros key Hne; by rewrite lookup_insert_ne|].
      by eexists.
    - rewrite (macos_blocked h w Hmac Hwrite). simpl.
      split; [done|]. split; [done|]. exists []. by rewrite app_nil_r. }
  rewrite (unsupported_run h w Hwin Hlinux Hmac). simpl.
  split; [done|]. split; [done|]. exists []. by rewrite app_nil_r.
Qed.

End CacheClearerEffects.

(** ** run_cmd *)
Module RunCmd.

(** What [subprocess.run] returns, as far as a caller reads it: the exit
    status and the merged standard output and error. *)
Record completed_process : Type := {
  returncode : Z;
  stdout : string
}.

(** The process as [run_cmd] changes it: [os.environ], and the commands it
    has started, each with the environment it was given. *)
Record process_state : Type := {
  environ : gmap string string;
  spawned : list (string * gmap string string)
}.

(** [run_cmd(command, env={})]; [shell command environment] is what running
    the command through the shell with that environment yields.
    [merged_env] is [os.environ] itself, not a copy: [update] and [pop]
    change the process's own environment. *)
Definition run_cmd
    (shell : string -> gmap string string -> completed_process)
    (command : string) (env : gmap string string) (st : process_state)
  : completed_process * process_state :=
  let merged_env := environ st in
  let merged_env := env ∪ merged_env in
  let merged_env := delete "DEBUG" merged_env in
  (shell command merged_env,
   {| environ := merged_env;
      spawned := spawned st ++ [(command, merged_env)] |}).

Lemma run_cmd_environ shell command env st :
  environ (snd (run_cmd shell command env st))
  = delete "DEBUG" (env ∪ environ st).
Proof. reflexivity. Qed.

(** The command runs in the process's own environment as the call leaves
    it: without [DEBUG], whether it came from the process or from [env], and
    with every other variable taken from [env] if [env] has it and from the
    process otherwise. *)
Theorem run_cmd_environment :
  forall (shell : string -> gmap string string -> completed_process)
         (command : string) (env : gmap string string) (st : process_state),
    let '(process, st') := run_cmd shell command env st in
    process = shell command (environ st')
    /\ spawned st' = spawned st ++ [(command, environ st')]
    /\ environ st' !! "DEBUG" = None
    /\ forall key : string,
         key <> "DEBUG" ->
         environ st' !! key
         = match env !! key with
           | Some value => Some value
           | None => environ st !! key
           end.
Proof.
  intros shell command env st. unfold run_cmd. cbn [environ spawned].
  split; [done|]. split; [done|]. split.
  - apply lookup_delete_eq.
  - intros key Hkey. rewrite lookup_delete_ne by done.
    rewrite lookup_union. by destruct (env !! key), (environ st !! key).
Qed.

(** An override given to one call stays in the process: a later call
    without overrides runs its command with that override, and leaves the
    environment as the first call left it. *)
Theorem run_cmd_overrides_persist :
  forall (shell : string -> gmap string string -> completed_process)
         (first later : string) (env : gmap string string)
         (st : process_state) (key value : string),
    env !! key = Some value ->
    key <> "DEBUG" ->
    let st1 := snd (run_cmd shell first env st) in
    let '(process, st2) := run_cmd shell later ∅ st1 in
    environ st1 !! key = Some value
    /\ process = shell later (environ st1)
    /\ environ st2 = environ st1.
Proof.
  intros shell first later env st key value Henv Hkey st1.
  assert (Hsame : delete "DEBUG" (∅ ∪ environ st1) = environ st1).
  { rewrite (left_id_L ∅ (∪)). apply delete_id.
    subst st1. rewrite run_cmd_environ. apply lookup_delete_eq. }
  unfold run_cmd at 1. cbv zeta. rewrite Hsame.
  split; [|done].
  subst st1. rewrite run_cmd_environ, lookup_delete_ne by done.
  by rewrite lookup_union, Henv; destruct (environ st !! key).
Qed.

Lemma run_cmd_overrides_persist_witness :
  let shell := fun (command : string) (environment : gmap string string) =>
    {| returncode := 0;
       stdout := default "" (environment !! "LANG") |} in
  let env : gmap string string := {[ "LANG" := "C" ]} in
  let st := {| environ := ∅; spawned := [] |} in
  let st1 := snd (run_cmd shell "first" env st) in
  let '(process, st2) := run_cmd shell "later" ∅ st1 in
  environ st1 !! "LANG" = Some "C"
  /\ process = shell "later" (environ st1)
  /\ environ st2 = environ st1.
Proof.
  exact (run_cmd_overrides_persist
           (fun command environment =>
              {| returncode := 0;
                 stdout := default "" (environment !! "LANG") |})
           "first" "later" {[ "LANG" := "C" ]}
           {| environ := ∅; spawned := [] |} "LANG" "C"
           (lookup_singleton_eq "LANG" "C") ltac:(discriminate)).
Defined.

End RunCmd.

(** ** is_number and is_valid_numeric_range *)
Module Validation.

Section Values.
(** The Python values that are neither a list nor a tuple, and whether the
    built-in [float] returns on them rather than raising. *)
Context {scalar : Type}.
Variable float_accepts : scalar -> bool.

#[warnings="-register-all"]
Inductive value : Type :=
| Scalar (x : scalar)
| PyList (items : list value)
| PyTuple (items : list value).

(** [is_number(value)]: [float] raises [TypeError] on a list and on a
    tuple, and the bare [except] turns every exception into [False]. *)
Definition is_number (v : value) : bool :=
  match v with
  | Scalar x => float_accepts x
  | PyList _ | PyTuple _ => false
  end.

(** The checks of [is_valid_numeric_range] on the items of a list or a
    tuple. *)
Definition check_items (items : list value) : bool :=
  if negb (Nat.eqb (length items) 2) then false
  else if negb (from_option is_number false (items !! 0%nat)) then false
  else if negb (from_option is_number false (items !! 1%nat)) then false
  else true.

(** [is_valid_numeric_range(value)] *)
Definition is_valid_numeric_range (v : value) : bool :=
  match v with
  | Scalar _ => false
  | PyList items | PyTuple items => check_items items
  end.

Lemma check_items_true items :
  check_items items = true
  <-> exists x y : scalar,
        items = [Scalar x; Scalar y]
        /\ float_accepts x = true /\ float_accepts y = true.
Proof.
  split.
  - destruct items as [|a [|b [|c items]]]; try discriminate.
    unfold check_items. simpl.
    destruct a as [x| |]; simpl; try discriminate.
    destruct (float_accepts x) eqn:Hx; simpl; [|discriminate].
    destruct b as [y| |]; simpl; try discriminate.
    destruct (float_accepts y) eqn:Hy; simpl; [|discriminate].
    intros _. by exists x, y.
  - intros (x & y & -> & Hx & Hy). unfold check_items. simpl.
    by rewrite Hx, Hy.
Qed.

End Values.

(** [is_valid_numeric_range] accepts exactly the lists and the tuples of two
    items that are both scalars [float] accepts: a nested list or tuple is
    no number, and the two bounds are not compared, so a range is accepted
    whichever way round it is given. *)
Theorem is_valid_numeric_range_accepts :
  forall (scalar : Type) (float_accepts : scalar -> bool),
    (forall v : value,
       is_valid_numeric_range float_accepts v = true
       <-> exists x y : scalar,
             (v = PyList [Scalar x; Scalar y]
              \/ v = PyTuple [Scalar x; Scalar y])
             /\ float_accepts x = true /\ float_accepts y = true)
    /\ (forall a b : value,
          is_valid_numeric_range float_accepts (PyList [a; b])
          = is_valid_numeric_range float_accepts (PyTuple [b; a])).
Proof.
  intros scalar float_accepts. split.
  - intros v. destruct v as [x|items|items]; simpl.
    + split; [discriminate|]. intros (x' & y & [?|?] & _); discriminate.
    + rewrite check_items_true. split.
      * intros (x & y & -> & Hx & Hy). exists x, y. auto.
      * intros (x & y & [Hv|Hv] & Hx & Hy); [|discriminate].
        injection Hv as ->. by exists x, y.
    + rewrite check_items_true. split.
      * intros (x & y & -> & Hx & Hy). exists x, y. auto.
      * intros (x & y & [Hv|Hv] & Hx & Hy); [discriminate|].
        injection Hv as ->. by exists x, y.
  - intros a b. simpl. unfold check_items. simpl.
    destruct (is_number float_accepts a), (is_number float_accepts b);
      reflexivity.
Qed.

End Validation.

(** ** normalize_version ([ieegprep/__init__.py]) *)
Module Versions.
Import Py.

Definition dot : ascii := ".".
Definition zero : ascii := "0".
Definition line_feed : ascii := ascii_of_nat 10.

(** Where a scan for [(\.0+)*] stands: at the start of a group, behind its
    dot, or inside its zeros. *)
Inductive scan : Type := AtGroup | AfterDot | InZeros.

(** Whether [s] completes a word of [(\.0+)*] from the given point. *)
Fixpoint zero_groups_from (st : scan) (s : string) : bool :=
  match s with
  | "" => match st with AfterDot => false | _ => true end
  | String c s' =>
    match st with
    | AtGroup => if Ascii.eqb c dot then zero_groups_from AfterDot s' else false
    | AfterDot => if Ascii.eqb c zero then zero_groups_from InZeros s' else false
    | InZeros =>
      if Ascii.eqb c zero then zero_groups_from InZeros s'
      else if Ascii.eqb c dot then zero_groups_from AfterDot s'
      else false
    end
  end.

(** [s] is a word of [(\.0+)*]. *)
Definition zero_groups (s : string) : bool := zero_groups_from AtGroup s.

(** [Some g] when [s] is [g] followed by one final line feed. *)
Fixpoint before_final_line_feed (s : string) : option string :=
  match s with
  | "" => None
  | String c s' =>
    match s' with
    | "" => if Ascii.eqb c line_feed then Some "" else None
    | _ => option_map (String c) (before_final_line_feed s')
    end
  end.

(** Whether [(\.0+)*$] matches at the start of [s] and, if so, what of [s]
    the match leaves: [$] holds at the end of the string and just before a
    final line feed. *)
Definition match_here (s : string) : option string :=
  if zero_groups s then Some ""
  else match before_final_line_feed s with
       | Some g => if zero_groups g then Some (String line_feed "") else None
       | None => None
       end.

(** [re.sub(r'(\.0+)*$', '', s)]: the leftmost match is removed; what it
    leaves is at most a final line feed, where only empty matches follow. *)
Fixpoint strip_zero_groups (s : string) : string :=
  match s with
  | "" => ""
  | String c s' =>
    match match_here s with
    | Some rest => rest
    | None => String c (strip_zero_groups s')
    end
  end.

(** [s.split(".")] *)
Fixpoint split_dot (s : string) : list string :=
  match s with
  | "" => [""]
  | String c s' =>
    if Ascii.eqb c dot then "" :: split_dot s'
    else match split_dot s' with
         | part :: parts => String c part :: parts
         | [] => [String c ""]
         end
  end.

(** [zeros n] is [n] characters ["0"]. *)
Fixpoint zeros (n : nat) : string :=
  match n with
  | O => ""
  | S n' => String zero (zeros n')
  end.

(** [s] ends with a line feed. *)
Definition ends_with_line_feed (s : string) : bool :=
  match before_final_line_feed s with Some _ => true | None => false end.

(** Python's [<] on lists of integers. *)
Fixpoint list_lt (a b : list Z) : bool :=
  match a, b with
  | [], [] => false
  | [], _ :: _ => true
  | _ :: _, [] => false
  | x :: a', y :: b' => if x =? y then list_lt a' b' else x <? y
  end.

Section Normalize.
(** The built-in [int] on a string: an integer, or the exception raised. *)
Variable py_int : string -> result Z.

(** [[int(x) for x in parts]] *)
Fixpoint int_each (parts : list string) : result (list Z) :=
  match parts with
  | [] => Ok []
  | x :: rest =>
    match py_int x with
    | Raise e => Raise e
    | Ok n =>
      match int_each rest with
      | Raise e => Raise e
      | Ok ns => Ok (n :: ns)
      end
    end
  end.

(** [normalize_version(v)] *)
Definition normalize_version (v : string) : result (list Z) :=
  int_each (split_dot (strip_zero_groups v)).

(** The test of the dependency check,
    [normalize_version(current) < normalize_version(required)]. *)
Definition outdated (current required : string) : result bool :=
  match normalize_version current with
  | Raise e => Raise e
  | Ok c =>
    match normalize_version required with
    | Raise e => Raise e
    | Ok r => Ok (list_lt c r)
    end
  end.

End Normalize.

(** A stand-in for [int] on plain decimal strings, to run the definitions. *)
Definition decimal_int (s : string) : result Z :=
  match NilZero.int_of_string s with
  | Some d => Ok (Z.of_int d)
  | None => Raise (ValueError s)
  end.

Example strip_zero_groups_runs :
  strip_zero_groups "1.0.0" = "1"
  /\ strip_zero_groups "1.10" = "1.10"
  /\ strip_zero_groups "2.0.1.0" = "2.0.1"
  /\ strip_zero_groups "0.0" = "0"
  /\ strip_zero_groups ".0" = ""
  /\ strip_zero_groups ("1.0" +:+ nl) = "1" +:+ nl
  /\ split_dot "2.0.1" = ["2"; "0"; "1"]
  /\ split_dot "" = [""]
  /\ split_dot "1." = ["1"; ""].
Proof. repeat split; reflexivity. Qed.

Lemma zero_groups_in_zeros n : zero_groups_from InZeros (zeros n) = true.
Proof. induction n as [|n IH]; [done|]. simpl. exact IH. Qed.

(** A further group of zeros at the end does not change whether a string
    is a word of [(\.0+)*], from any point of the scan. *)
Lemma zero_groups_from_more st x n :
  zero_groups_from st (x +:+ String dot (zeros (S n)))
  = zero_groups_from st x.
Proof.
  revert st. induction x as [|c x IH]; intros st.
  - rewrite PyStr.sapp_nil_l.
    destruct st; simpl; try reflexivity; apply zero_groups_in_zeros.
  - rewrite PyStr.sapp_cons. simpl.
    destruct st; repeat (destruct (Ascii.eqb c _)); try reflexivity; apply IH.
Qed.

Lemma before_final_line_feed_cons c d s :
  before_final_line_feed (String c (String d s))
  = option_map (String c) (before_final_line_feed (String d s)).
Proof. reflexivity. Qed.

Lemma before_final_line_feed_zeros c n :
  Ascii.eqb c line_feed = false ->
  before_final_line_feed (String c (zeros n)) = None.
Proof.
  revert c. induction n as [|n IH]; intros c Hc.
  - simpl. by rewrite Hc.
  - simpl zeros. rewrite before_final_line_feed_cons, IH; done.
Qed.

Lemma before_final_line_feed_more x n :
  before_final_line_feed (x +:+ String dot (zeros (S n))) = None.
Proof.
  induction x as [|c x IH].
  - rewrite PyStr.sapp_nil_l. by apply before_final_line_feed_zeros.
  - rewrite PyStr.sapp_cons.
    destruct (x +:+ String dot (zeros (S n))) as [|d s] eqn:Hs.
    + destruct x; discriminate.
    + by rewrite before_final_line_feed_cons, IH.
Qed.

Lemma ends_with_line_feed_tail c x :
  ends_with_line_feed (String c x) = false -> ends_with_line_feed x = false.
Proof.
  unfold ends_with_line_feed. destruct x as [|d x]; [done|].
  rewrite before_final_line_feed_cons.
  by destruct (before_final_line_feed (String d x)).
Qed.

(** Removing the trailing groups of zeros gives the same string with and
    without one more such group. *)
Lemma strip_zero_groups_more v n :
  ends_with_line_feed v = false ->
  strip_zero_groups (v +:+ String dot (zeros (S n))) = strip_zero_groups v.
Proof.
  induction v as [|c v IH]; intros Hend.
  - rewrite PyStr.sapp_nil_l.
    change (strip_zero_groups (String dot (zeros (S n))))
      with (match match_here (String dot (zeros (S n))) with
            | Some rest => rest
            | None => String dot (strip_zero_groups (zeros (S n)))
            end).
    unfold match_here, zero_groups.
    rewrite <- (PyStr.sapp_nil_l (String dot (zeros (S n)))).
    by rewrite zero_groups_from_more.
  - pose proof (ends_with_line_feed_tail c v Hend) as Hv.
    rewrite PyStr.sapp_cons.
    change (strip_zero_groups (String c (v +:+ String dot (zeros (S n)))))
      with (match match_here (String c (v +:+ String dot (zeros (S n)))) with
            | Some rest => rest
            | None => String c (strip_zero_groups
                                  (v +:+ String dot (zeros (S n))))
            end).
    change (strip_zero_groups (String c v))
      with (match match_here (String c v) with
            | Some rest => rest
            | None => String c (strip_zero_groups v)
            end).
    unfold match_here, zero_groups.
    rewrite <- PyStr.sapp_cons, zero_groups_from_more, before_final_line_feed_more.
    unfold ends_with_line_feed in Hend.
    destruct (before_final_line_feed (String c v)); [discriminate|].
    destruct (zero_groups_from AtGroup (String c v)); [reflexivity|].
    by rewrite IH.
Qed.

Lemma list_lt_irrefl l : list_lt l l = false.
Proof.
  induction l as [|x l IH]; [done|]. simpl. by rewrite Z.eqb_refl.
Qed.

Example normalize_version_runs :
  normalize_version decimal_int "1.10.0" = Ok [1; 10]
  /\ normalize_version decimal_int "2.0.1" = Ok [2; 0; 1]
  /\ normalize_version decimal_int "1.0rc1" = Raise (ValueError "0rc1")
  /\ outdated decimal_int "1.9" "1.10" = Ok true
  /\ outdated decimal_int "1.10.0" "1.10" = Ok false.
Proof. repeat split; reflexivity. Qed.

(** A version and the same version with one more trailing group of zeros
    ([v] and [v.0], [v.00], ...) are normalised alike, whatever [int] does
    with the parts, provided [v] does not end with a line feed. *)
Theorem normalize_version_trailing_zeros :
  forall (py_int : string -> result Z) (v : string) (n : nat),
    ends_with_line_feed v = false ->
    normalize_version py_int (v +:+ String dot (zeros (S n)))
    = normalize_version py_int v.
Proof.
  intros py_int v n Hend. unfold normalize_version.
  by rewrite strip_zero_groups_more.
Qed.

Lemma normalize_version_trailing_zeros_witness :
  ends_with_line_feed "1.2" = false
  /\ normalize_version decimal_int "1.2.00" = normalize_version decimal_int "1.2".
Proof.
  split; [reflexivity|].
  exact (normalize_version_trailing_zeros decimal_int "1.2" 1 eq_refl).
Defined.

(** In the dependency check, a version that differs from the required one
    only by a trailing group of zeros is not outdated, in either
    direction. *)
Theorem outdated_ignores_trailing_zeros :
  forall (py_int : string -> result Z) (v : string) (n : nat)
         (parts : list Z),
    ends_with_line_feed v = false ->
    normalize_version py_int v = Ok parts ->
    outdated py_int (v +:+ String dot (zeros (S n))) v = Ok false
    /\ outdated py_int v (v +:+ String dot (zeros (S n))) = Ok false.
Proof.
  intros py_int v n parts Hend Hparts.
  assert (Hmore : normalize_version py_int (v +:+ String dot (zeros (S n)))
                  = Ok parts).
  { unfold normalize_version in *. by rewrite strip_zero_groups_more. }
  unfold outdated. rewrite Hmore, Hparts, list_lt_irrefl. done.
Qed.

Lemma outdated_ignores_trailing_zeros_witness :
  ends_with_line_feed "1.2" = false
  /\ normalize_version decimal_int "1.2" = Ok [1; 2]
  /\ outdated decimal_int "1.2.0" "1.2" = Ok false
  /\ outdated decimal_int "1.2" "1.2.0" = Ok false.
Proof.
  split; [reflexivity|]. split; [reflexivity|].
  exact (outdated_ignores_trailing_zeros decimal_int "1.2" 0 [1; 2]
           eq_refl eq_refl).
Defined.

End Versions.
